(** * Student marks analysis: statistics engine and ranker

    A shallow embedding of [Student-Marks-analysis.py]: the fixed-data matrix
    builder [create_student_data], the statistics engine
    [calculate_student_statistics] and the ranker [rank_students], together
    with the NumPy operations they call; then [display_results], as the
    tables it shows, and [interactive_mode], as a reader of the lines typed.

    NumPy code is generic in the element type of its arrays, so the embedding
    is written once over an interface [Arith] of scalar operations and is
    instantiated twice:
    - [binary64], IEEE 754 double precision (the kernel's primitive floats),
      which is what the program computes with;
    - [exact], the real numbers, which is the arithmetic the floating-point
      operations approximate.
    Statements that hold for every instance are proved for every instance. *)

From Stdlib Require Import String Bool ZArith Lia.
From Stdlib Require Import Reals Lra.
From Stdlib Require Import Floats Uint63.
From Stdlib Require Import List Permutation Sorted.
Import ListNotations.

Set Warnings "-inexact-float".

(** ** Exceptions *)

(** The two exceptions NumPy raises on the paths modelled here. *)
Inductive exn : Set :=
| ValueError   (* zero-size array to a reduction which has no identity *)
| IndexError.  (* index out of bounds *)

Inductive result (T : Type) : Type :=
| Ok (v : T)
| Raise (e : exn).

Arguments Ok {T} v.
Arguments Raise {T} e.

Definition bind {T U : Type} (c : result T) (k : T -> result U) : result U :=
  match c with
  | Ok v => k v
  | Raise e => Raise e
  end.

Notation "x <- c ;; k" := (bind c (fun x => k))
  (at level 61, c at next level, right associativity).

Fixpoint mapM {T U : Type} (f : T -> result U) (l : list T) : result (list U) :=
  match l with
  | [] => Ok []
  | x :: xs => y <- f x ;; ys <- mapM f xs ;; Ok (y :: ys)
  end.

(** ** Scalars *)

(** The operations NumPy applies to array elements. [flt] is [<] and
    [fisnan x] is [x != x]. *)
Class Arith (A : Type) : Type := {
  of_Z : Z -> A;
  fadd : A -> A -> A;
  fsub : A -> A -> A;
  fmul : A -> A -> A;
  fdiv : A -> A -> A;
  fsqrt : A -> A;
  flt : A -> A -> bool;
  fisnan : A -> bool
}.

(** float64: Python's [float] and NumPy's default floating dtype. The
    conversion of an integer is exact below 2^53 in absolute value. *)
Definition float_of_Z (z : Z) : float :=
  match z with
  | Z0 => PrimFloat.zero
  | Zpos _ => PrimFloat.of_uint63 (Uint63.of_Z z)
  | Zneg p => PrimFloat.opp (PrimFloat.of_uint63 (Uint63.of_Z (Zpos p)))
  end.

#[export] Instance binary64 : Arith float := {
  of_Z := float_of_Z;
  fadd := PrimFloat.add;
  fsub := PrimFloat.sub;
  fmul := PrimFloat.mul;
  fdiv := PrimFloat.div;
  fsqrt := PrimFloat.sqrt;
  flt := PrimFloat.ltb;
  fisnan := PrimFloat.is_nan
}.

(** Exact real arithmetic: no rounding and no NaN. *)
Definition Rltb (x y : R) : bool := if Rlt_dec x y then true else false.

#[export] Instance exact : Arith R := {
  of_Z := IZR;
  fadd := Rplus;
  fsub := Rminus;
  fmul := Rmult;
  fdiv := Rdiv;
  fsqrt := R_sqrt.sqrt;
  flt := Rltb;
  fisnan := fun _ => false
}.

(** ** Arrays *)

(** A two-dimensional [ndarray] of shape [(length rows, ncols)]. The number of
    columns is part of the value: an array with no rows still has one. *)
Record ndarray2 (A : Type) : Type := mk_ndarray2 {
  ncols : nat;
  rows : list (list A)
}.

Arguments mk_ndarray2 {A} ncols rows.
Arguments ncols {A} n.
Arguments rows {A} n.

Definition nrows {A : Type} (m : ndarray2 A) : nat := length (rows m).

(** Every row has the array's number of columns (an [ndarray] is never ragged). *)
Definition wf {A : Type} (m : ndarray2 A) : Prop :=
  Forall (fun r => length r = ncols m) (rows m).

(** [np.array] on a nested list literal with rows of one length. *)
Definition np_array {A : Type} (l : list (list A)) : ndarray2 A :=
  {| ncols := length (hd [] l); rows := l |}.

(** ** The NumPy operations used by the program *)

Section Numpy.
Context {A : Type} {F : Arith A}.

(** The element count of a reduction, as a scalar. *)
Definition count (n : nat) : A := of_Z (Z.of_nat n).

(** [np.add.reduce] along one row, accumulating from the identity [0] in
    index order. (NumPy adds a row of fewer than 8 elements in this order and
    a longer one pairwise in blocks; the results agree in exact arithmetic
    and, in float64, whenever no addition rounds.) *)
Definition np_sum (r : list A) : A := fold_left fadd r (of_Z 0).

(** [np.mean(a, axis=1)]: the row sums divided by the length of the axis.
    On an axis of length 0 NumPy only warns and divides by zero. *)
Definition np_mean_axis1 (m : ndarray2 A) : list A :=
  map (fun r => fdiv (np_sum r) (count (ncols m))) (rows m).

(** [np.maximum] and [np.minimum]: a NaN in either operand is the result. *)
Definition maximum (a b : A) : A :=
  if fisnan a then a else if flt b a then a else b.

Definition minimum (a b : A) : A :=
  if fisnan a then a else if flt a b then a else b.

(** A reduction with an operation that has no identity starts from the
    first element of the row; there is none in an empty row. *)
Definition reduce1 (op : A -> A -> A) (r : list A) : result A :=
  match r with
  | [] => Raise ValueError
  | x :: xs => Ok (fold_left op xs x)
  end.

(** The same along axis 1: NumPy refuses a reduced axis of length 0
    ("zero-size array to reduction operation ... which has no identity"). *)
Definition reduce_axis1 (op : A -> A -> A) (m : ndarray2 A) : result (list A) :=
  if Nat.eqb (ncols m) 0 then Raise ValueError else mapM (reduce1 op) (rows m).

Definition np_max_axis1 (m : ndarray2 A) : result (list A) := reduce_axis1 maximum m.
Definition np_min_axis1 (m : ndarray2 A) : result (list A) := reduce_axis1 minimum m.

(** [np.std] on one row of [n] elements: the mean, the deviations from it,
    their squares, the sum of the squares over [max(n - ddof, 0)], and the
    square root of that. *)
Definition np_std_row (ddof n : nat) (r : list A) : A :=
  let arrmean := fdiv (np_sum r) (count n) in
  let x := map (fun a => fsub a arrmean) r in
  let x := map (fun d => fmul d d) x in
  fsqrt (fdiv (np_sum x) (count (n - ddof))).

(** [np.std(a, axis=1, ddof=ddof)]; [ddof] defaults to 0. *)
Definition np_std_axis1 (ddof : nat) (m : ndarray2 A) : list A :=
  map (np_std_row ddof (ncols m)) (rows m).

(** The order NumPy sorts floating-point values in: [<], with NaN last. *)
Definition np_less (a b : A) : bool :=
  flt a b || (fisnan b && negb (fisnan a)).

(** One step of the insertion pass: the entry [p] = (index, value) moves
    left past every entry whose value is greater. [acc] is the sorted
    prefix, last entry first. *)
Fixpoint insert_from_right (p : nat * A) (acc : list (nat * A)) : list (nat * A) :=
  match acc with
  | [] => [p]
  | q :: rest =>
      if np_less (snd p) (snd q) then q :: insert_from_right p rest
      else p :: acc
  end.

(** The insertion pass over the whole array; the result is last entry first. *)
Definition insertion_pass (v : list A) : list (nat * A) :=
  fold_left (fun acc p => insert_from_right p acc)
            (combine (seq 0 (length v)) v) [].

(** Modelled from the spec: [np.argsort] is library code, not part of the
    repository. Section 4.3 of the specification fixes it as a stable
    ascending sort of the index set; it is realised here by straight
    insertion, the pass NumPy's default sort runs on short arrays. *)
Definition argsort (v : list A) : list nat :=
  map fst (rev (insertion_pass v)).

(** [a[idx]] with an array of indices: every index has to be in bounds. *)
Definition take {T : Type} (a : list T) (idx : list nat) : result (list T) :=
  mapM (fun i => match nth_error a i with
                 | Some x => Ok x
                 | None => Raise IndexError
                 end) idx.

(** [np.arange(start, stop)]. *)
Definition arange (start stop : nat) : list nat := seq start (stop - start).

End Numpy.

(** [a.astype(float)]: the promotion NumPy applies to an integer array inside
    [np.mean] and [np.std]. ([np.max] and [np.min] of an integer array are
    integers; here they are the same numbers as scalars.) *)
Definition astype {A : Type} {F : Arith A} (m : ndarray2 Z) : ndarray2 A :=
  {| ncols := ncols m; rows := map (map of_Z) (rows m) |}.

(** ** The program *)

Definition create_student_data : ndarray2 Z * list string * list string :=
  let marks := np_array
    [ [85; 78; 92; 88; 90];
      [76; 82; 79; 85; 88];
      [92; 95; 89; 91; 94];
      [68; 72; 75; 70; 73];
      [88; 85; 87; 89; 86] ]%Z in
  let student_names := ["Alice"; "Bob"; "Charlie"; "David"; "Eve"]%string in
  let subjects := ["Math"; "Physics"; "Chemistry"; "English"; "Computer"]%string in
  (marks, student_names, subjects).

Section Program.
Context {A : Type} {F : Arith A}.

Definition calculate_student_statistics (marks : ndarray2 A)
  : result (list A * list A * list A * list A) :=
  let averages := np_mean_axis1 marks in
  maximums <- np_max_axis1 marks ;;
  minimums <- np_min_axis1 marks ;;
  let std_devs := np_std_axis1 0 marks in
  Ok (averages, maximums, minimums, std_devs).

(** [np.argsort(averages)[::-1]] *)
Definition sorted_indices (averages : list A) : list nat :=
  rev (argsort averages).

Definition rank_students (student_names : list string) (averages : list A)
  : result (list string * list A * list nat) :=
  let sorted_indices := sorted_indices averages in
  ranked_names <- take student_names sorted_indices ;;
  ranked_averages <- take averages sorted_indices ;;
  let ranks := arange 1 (length student_names + 1) in
  Ok (ranked_names, ranked_averages, ranks).

End Program.

(** ** Specification-side definitions *)

(** What [a[idx]] selects, as a total function: out-of-bounds indices select
    nothing. *)
Definition select {T : Type} (a : list T) (idx : list nat) : list T :=
  flat_map (fun i => match nth_error a i with Some x => [x] | None => [] end) idx.

(** A comparison one can sort by: asymmetric and negatively transitive. *)
Definition strict_weak_order {A : Type} (lt : A -> A -> bool) : Prop :=
  (forall a b, lt a b = true -> lt b a = false) /\
  (forall a b c, lt a c = true -> lt a b = true \/ lt b c = true).

(** The entry [p] = (index, value) may stand before the entry [q] in an
    ascending stable order: [q]'s value does not sort before [p]'s, and if
    the values are equal then [p] has the smaller index. *)
Definition entry_before {A : Type} {F : Arith A} (p q : nat * A) : Prop :=
  np_less (snd q) (snd p) = false /\ (snd p = snd q -> fst p < fst q).

(** The same for two indices of the array [v]. *)
Definition before_asc_stable {A : Type} {F : Arith A} (v : list A) (i j : nat) : Prop :=
  exists a b,
    nth_error v i = Some a /\ nth_error v j = Some b /\ entry_before (i, a) (j, b).

(** The sort order of float64 on the specification floats of the standard
    library, and the position of a float in it as a triple compared
    lexicographically: class, then exponent, then mantissa. *)
Definition sf_isnan (s : spec_float) : bool := negb (SFeqb s s).

Definition sf_less (a b : spec_float) : bool :=
  SFltb a b || (sf_isnan b && negb (sf_isnan a)).

Definition sf_rank (s : spec_float) : Z * Z * Z :=
  match s with
  | S754_nan => (3, 0, 0)
  | S754_infinity false => (2, 0, 0)
  | S754_infinity true => (-2, 0, 0)
  | S754_zero _ => (0, 0, 0)
  | S754_finite false m e => (1, e, Zpos m)
  | S754_finite true m e => (-1, - e, Zneg m)
  end%Z.

Definition lex_lt (x y : Z * Z * Z) : Prop :=
  let '(a, b, c) := x in
  let '(a', b', c') := y in
  (a < a' \/ (a = a' /\ (b < b' \/ (b = b' /\ c < c'))))%Z.

(** Section 4.2 of the specification, in the arithmetic of the scalars:
    stddev = sqrt( sum((x - mean)^2 for x in row) / C ), and, for contrast,
    the sample standard deviation with divisor C - 1. *)
Definition population_stddev {A : Type} {F : Arith A} (row : list A) (mean : A) (C : nat) : A :=
  fsqrt (fdiv (np_sum (map (fun x => fmul (fsub x mean) (fsub x mean)) row)) (count C)).

Definition sample_stddev {A : Type} {F : Arith A} (row : list A) (mean : A) (C : nat) : A :=
  fsqrt (fdiv (np_sum (map (fun x => fmul (fsub x mean) (fsub x mean)) row)) (count (C - 1))).

(** The sum, the least and the greatest element of a list of reals. *)
Definition Rsum (l : list R) : R := fold_right Rplus 0%R l.

Definition is_min (mn : R) (row : list R) : Prop :=
  In mn row /\ Forall (fun x => (mn <= x)%R) row.

Definition is_max (mx : R) (row : list R) : Prop :=
  In mx row /\ Forall (fun x => (x <= mx)%R) row.

(** ** Display and interactive entry *)

(** [a[i]] with one index. *)
Definition getitem {T : Type} (a : list T) (i : nat) : result T :=
  match nth_error a i with
  | Some x => Ok x
  | None => Raise IndexError
  end.

(** [enumerate(a)] *)
Definition enumerate {T : Type} (a : list T) : list (nat * T) :=
  combine (seq 0 (length a)) a.

(** The list [l] with position [i] replaced by [x]. *)
Fixpoint set_nth {T : Type} (i : nat) (x : T) (l : list T) : list T :=
  match l, i with
  | [], _ => []
  | _ :: l', 0 => x :: l'
  | y :: l', S i' => y :: set_nth i' x l'
  end.

(** The medal printed beside a rank. *)
Inductive medal : Set := Gold | Silver | Bronze | NoMedal.

Definition medal_of (rank : nat) : medal :=
  if Nat.eqb rank 1 then Gold
  else if Nat.eqb rank 2 then Silver
  else if Nat.eqb rank 3 then Bronze
  else NoMedal.

(** What [display_results] prints, table by table and before it is laid out
    as text: the subjects of the header row, the marks of every student, the
    statistics of every student, the ranking with its medals, the class
    statistics and the average of every subject. *)
Record display (A : Type) : Type := mk_display {
  shown_subjects : list string;
  shown_marks : list (string * list A);
  shown_statistics : list (string * (A * A * A * A));
  shown_ranking : list (nat * string * A * medal);
  shown_total : nat;
  shown_class_average : A;
  shown_highest : A;
  shown_lowest : A;
  shown_class_std : A;
  shown_subject_averages : list (string * A)
}.

Arguments mk_display {A}.
Arguments shown_subjects {A} d.
Arguments shown_marks {A} d.
Arguments shown_statistics {A} d.
Arguments shown_ranking {A} d.
Arguments shown_total {A} d.
Arguments shown_class_average {A} d.
Arguments shown_highest {A} d.
Arguments shown_lowest {A} d.
Arguments shown_class_std {A} d.
Arguments shown_subject_averages {A} d.

Section Display.
Context {A : Type} {F : Arith A}.

(** [np.mean], [np.max], [np.min] and [np.std] of a one-dimensional array.
    The mean and the standard deviation of an empty array are a division by
    zero (NumPy warns); its maximum and minimum raise. *)
Definition np_mean1 (a : list A) : A := fdiv (np_sum a) (count (length a)).
Definition np_max1 (a : list A) : result A := reduce1 maximum a.
Definition np_min1 (a : list A) : result A := reduce1 minimum a.
Definition np_std1 (a : list A) : A := np_std_row 0 (length a) a.

(** [np.mean(marks, axis=0)]: the rows are added up one after the other,
    then every column sum is divided by the number of rows. *)
Definition add_rows (acc r : list A) : list A :=
  map (fun p => fadd (fst p) (snd p)) (combine acc r).

Definition np_sum_axis0 (m : ndarray2 A) : list A :=
  fold_left add_rows (rows m) (repeat (of_Z 0) (ncols m)).

Definition np_mean_axis0 (m : ndarray2 A) : list A :=
  map (fun s => fdiv s (count (nrows m))) (np_sum_axis0 m).

(** [np.zeros((n, m))]: negative dimensions are refused; memory is not
    bounded here. *)
Definition np_zeros (n m : Z) : result (ndarray2 A) :=
  if (n <? 0)%Z || (m <? 0)%Z then Raise ValueError
  else Ok {| ncols := Z.to_nat m;
             rows := repeat (repeat (of_Z 0) (Z.to_nat m)) (Z.to_nat n) |}.

(** [marks[i, j] = v] *)
Definition setitem2 (m : ndarray2 A) (i j : nat) (v : A) : result (ndarray2 A) :=
  match nth_error (rows m) i with
  | Some r =>
      if Nat.ltb j (ncols m)
      then Ok {| ncols := ncols m; rows := set_nth i (set_nth j v r) (rows m) |}
      else Raise IndexError
  | None => Raise IndexError
  end.

(** The tables in the order they are printed. An exception ends the call;
    the text printed before it is not kept. *)
Definition display_results (student_names : list string) (marks : ndarray2 A)
           (averages maximums minimums std_devs : list A) (subjects : list string)
  : result (display A) :=
  shown_marks <-
    mapM (fun '(i, name) => row <- getitem (rows marks) i ;; Ok (name, row))
         (enumerate student_names) ;;
  shown_statistics <-
    mapM (fun '(i, name) =>
            a <- getitem averages i ;;
            mx <- getitem maximums i ;;
            mn <- getitem minimums i ;;
            sd <- getitem std_devs i ;;
            Ok (name, (a, mx, mn, sd)))
         (enumerate student_names) ;;
  ranking <- rank_students student_names averages ;;
  let '(ranked_names, ranked_averages, ranks) := ranking in
  shown_ranking <-
    mapM (fun i =>
            rank <- getitem ranks i ;;
            name <- getitem ranked_names i ;;
            a <- getitem ranked_averages i ;;
            Ok (rank, name, a, medal_of rank))
         (seq 0 (length ranks)) ;;
  let class_average := np_mean1 averages in
  highest <- np_max1 averages ;;
  lowest <- np_min1 averages ;;
  let class_std := np_std1 averages in
  let subject_averages := np_mean_axis0 marks in
  shown_subject_averages <-
    mapM (fun '(i, subject) => a <- getitem subject_averages i ;; Ok (subject, a))
         (enumerate subjects) ;;
  Ok {| shown_subjects := subjects;
        shown_marks := shown_marks;
        shown_statistics := shown_statistics;
        shown_ranking := shown_ranking;
        shown_total := length student_names;
        shown_class_average := class_average;
        shown_highest := highest;
        shown_lowest := lowest;
        shown_class_std := class_std;
        shown_subject_averages := shown_subject_averages |}.

End Display.

(** The rows of the statistics table and of the ranking, read from the
    arrays side by side. *)
Definition statistics_row {A : Type} (name : string) (x : A * (A * (A * A)))
  : string * (A * A * A * A) :=
  let '(a, (mx, (mn, sd))) := x in (name, (a, mx, mn, sd)).

Definition ranking_row {A : Type} (x : nat * (string * A)) : nat * string * A * medal :=
  let '(rank, (name, a)) := x in (rank, name, a, medal_of rank).

(** Standard input is the list of the lines still to be read; [input()]
    takes the first one and raises [EOFError] when there is none. Prompts are
    not modelled. *)
Inductive py_exn : Set :=
| Exn (e : exn)
| EOFError.

Inductive io_result (T : Type) : Type :=
| Done (v : T) (rest : list string)
| Failed (e : py_exn).

Arguments Done {T} v rest.
Arguments Failed {T} e.

Definition io (T : Type) : Type := list string -> io_result T.

Definition io_ret {T : Type} (v : T) : io T := fun stdin => Done v stdin.

Definition io_bind {T U : Type} (c : io T) (k : T -> io U) : io U :=
  fun stdin =>
    match c stdin with
    | Done v rest => k v rest
    | Failed e => Failed e
    end.

Notation "x <~ c ;; k" := (io_bind c (fun x => k))
  (at level 61, c at next level, right associativity).

Definition lift {T : Type} (r : result T) : io T :=
  fun stdin =>
    match r with
    | Ok v => Done v stdin
    | Raise e => Failed (Exn e)
    end.

Definition input : io string :=
  fun stdin =>
    match stdin with
    | [] => Failed EOFError
    | line :: rest => Done line rest
    end.

(** [for x in l: s = body(x, s)] *)
Fixpoint for_each {S T : Type} (l : list T) (body : T -> S -> io S) (s : S) : io S :=
  match l with
  | [] => io_ret s
  | x :: xs => s' <~ body x s ;; for_each xs body s'
  end.

Section Interactive.
Context {A : Type} {F : Arith A}.

(** Python's [int(s)] and [float(s)]: [None] where they raise [ValueError]. *)
Variable parse_int : string -> option Z.
Variable parse_float : string -> option A.

Definition int_of (s : string) : result Z :=
  match parse_int s with
  | Some z => Ok z
  | None => Raise ValueError
  end.

Definition float_of (s : string) : result A :=
  match parse_float s with
  | Some x => Ok x
  | None => Raise ValueError
  end.

(** The bodies of the three loops: one subject name; one mark, prompted
    with [subjects[j]] and stored at [marks[i, j]]; one student, a name and
    then a mark per subject. *)
Definition read_subject (j : nat) (subjects : list string) : io (list string) :=
  s <~ input ;; io_ret (subjects ++ [s]).

Definition read_mark (subjects : list string) (i j : nat) (marks : ndarray2 A)
  : io (ndarray2 A) :=
  _ <~ lift (getitem subjects j) ;;
  line <~ input ;;
  v <~ lift (float_of line) ;;
  lift (setitem2 marks i j v).

Definition read_student (subjects : list string) (n_subjects : nat) (i : nat)
           (state : list string * ndarray2 A) : io (list string * ndarray2 A) :=
  let '(student_names, marks) := state in
  name <~ input ;;
  marks <~ for_each (seq 0 n_subjects) (read_mark subjects i) marks ;;
  io_ret (student_names ++ [name], marks).

(** The two counts, the array of zeros, the subject names, the students with
    their marks, then the statistics and the display. *)
Definition interactive_mode : io (display A) :=
  line <~ input ;;
  n_students <~ lift (int_of line) ;;
  line <~ input ;;
  n_subjects <~ lift (int_of line) ;;
  marks <~ lift (np_zeros n_students n_subjects) ;;
  subjects <~ for_each (seq 0 (Z.to_nat n_subjects)) read_subject [] ;;
  state <~ for_each (seq 0 (Z.to_nat n_students))
                    (read_student subjects (Z.to_nat n_subjects)) ([], marks) ;;
  let '(student_names, marks) := state in
  stats <~ lift (calculate_student_statistics marks) ;;
  let '(averages, maximums, minimums, std_devs) := stats in
  lift (display_results student_names marks averages maximums minimums std_devs subjects).

(** The same entry read as a table: [k] lines; [k] marks; [n] students, each
    a name followed by [m] marks. *)
Fixpoint read_lines (k : nat) : io (list string) :=
  match k with
  | 0 => io_ret []
  | S k' => s <~ input ;; ls <~ read_lines k' ;; io_ret (s :: ls)
  end.

Fixpoint read_floats (k : nat) : io (list A) :=
  match k with
  | 0 => io_ret []
  | S k' =>
      line <~ input ;; v <~ lift (float_of line) ;;
      vs <~ read_floats k' ;; io_ret (v :: vs)
  end.

Fixpoint read_blocks (n m : nat) : io (list (string * list A)) :=
  match n with
  | 0 => io_ret []
  | S n' =>
      name <~ input ;; vs <~ read_floats m ;;
      bs <~ read_blocks n' m ;; io_ret ((name, vs) :: bs)
  end.

Definition interactive_reference : io (display A) :=
  line <~ input ;;
  n_students <~ lift (int_of line) ;;
  line <~ input ;;
  n_subjects <~ lift (int_of line) ;;
  _ <~ lift (np_zeros n_students n_subjects) ;;
  subjects <~ read_lines (Z.to_nat n_subjects) ;;
  blocks <~ read_blocks (Z.to_nat n_students) (Z.to_nat n_subjects) ;;
  let marks := {| ncols := Z.to_nat n_subjects; rows := map snd blocks |} in
  stats <~ lift (calculate_student_statistics marks) ;;
  let '(averages, maximums, minimums, std_devs) := stats in
  lift (display_results (map fst blocks) marks averages maximums minimums std_devs
                        subjects).

End Interactive.

(** The unsigned decimal numerals, a part of what [int(s)] accepts; it
    stands in for [int] and [float] in the examples. *)
Fixpoint digits_value (s : string) (acc : Z) : option Z :=
  match s with
  | EmptyString => Some acc
  | String c s' =>
      let n := Ascii.nat_of_ascii c in
      if Nat.leb 48 n && Nat.leb n 57
      then digits_value s' (10 * acc + Z.of_nat (n - 48))%Z
      else None
  end.

Definition parse_decimal (s : string) : option Z :=
  match s with
  | EmptyString => None
  | _ => digits_value s 0%Z
  end.

(** * Properties *)

(** ** Sequencing and indexing *)

Lemma mapM_Ok_Forall2 {T U : Type} (f : T -> result U) (l : list T) (ys : list U) :
  mapM f l = Ok ys <-> Forall2 (fun x y => f x = Ok y) l ys.
Proof.
  revert ys; induction l as [|x xs IH]; intros ys; simpl.
  - split.
    + intros H; injection H as <-; constructor.
    + intros H; inversion H; reflexivity.
  - destruct (f x) as [y|e] eqn:Hx; simpl.
    + destruct (mapM f xs) as [zs|e] eqn:Hxs; simpl.
      * split.
        -- intros H; injection H as <-. constructor; [assumption|]. now apply IH.
        -- intros H; inversion H as [|? y' ? zs' Hy Hzs]; subst.
           rewrite Hx in Hy; injection Hy as <-.
           apply IH in Hzs. now injection Hzs as <-.
      * split; [discriminate|].
        intros H; inversion H as [|? y' ? zs' Hy Hzs]; subst.
        apply IH in Hzs; discriminate.
    + split; [discriminate|].
      intros H; inversion H as [|? y' ? zs' Hy Hzs]; subst.
      rewrite Hx in Hy; discriminate.
Qed.

Lemma mapM_Raise {T U : Type} (f : T -> result U) (l : list T) (e : exn) :
  mapM f l = Raise e -> exists x, In x l /\ f x = Raise e.
Proof.
  induction l as [|x xs IH]; simpl; [discriminate|].
  destruct (f x) as [y|e'] eqn:Hx; simpl.
  - destruct (mapM f xs) as [zs|e''] eqn:Hxs; simpl; [discriminate|].
    intros H; injection H as ->.
    destruct (IH eq_refl) as (z & Hz & Hfz). exists z; split; [now right|assumption].
  - intros H; injection H as ->. exists x; split; [now left|assumption].
Qed.

Lemma take_Ok_iff {T : Type} (a : list T) (idx : list nat) (ys : list T) :
  take a idx = Ok ys <-> Forall2 (fun i y => nth_error a i = Some y) idx ys.
Proof.
  unfold take; rewrite mapM_Ok_Forall2.
  split; intros H; induction H; constructor; auto.
  - destruct (nth_error a x); [congruence|discriminate].
  - now rewrite H.
Qed.

Lemma take_in_bounds {T : Type} (a : list T) (idx : list nat) :
  Forall (fun i => i < length a) idx -> exists ys, take a idx = Ok ys.
Proof.
  induction 1 as [|i idx Hi _ (ys & IH)].
  - exists []; reflexivity.
  - destruct (nth_error a i) as [x|] eqn:Hx.
    + exists (x :: ys). unfold take in *; simpl. now rewrite Hx, IH.
    + apply nth_error_None in Hx; lia.
Qed.

Lemma take_Raise {T : Type} (a : list T) (idx : list nat) (e : exn) :
  take a idx = Raise e -> e = IndexError /\ exists i, In i idx /\ length a <= i.
Proof.
  unfold take; intros H. apply mapM_Raise in H as (i & Hi & Hf).
  destruct (nth_error a i) eqn:Hn; [discriminate|].
  injection Hf as <-. split; [reflexivity|].
  exists i; split; [assumption|]. now apply nth_error_None.
Qed.

Lemma take_select {T : Type} (a : list T) (idx : list nat) (ys : list T) :
  take a idx = Ok ys -> ys = select a idx.
Proof.
  rewrite take_Ok_iff. induction 1 as [|i y idx ys Hi _ IH]; [reflexivity|].
  unfold select in *; simpl. now rewrite Hi, <- IH.
Qed.

Lemma select_seq_from {T : Type} (pre a : list T) :
  select (pre ++ a) (seq (length pre) (length a)) = a.
Proof.
  revert pre; induction a as [|x a IH]; intros pre; [reflexivity|].
  unfold select in *; simpl.
  rewrite nth_error_app2, Nat.sub_diag by lia; simpl.
  specialize (IH (pre ++ [x])).
  rewrite <- app_assoc, length_app, Nat.add_1_r in IH; simpl in IH.
  now rewrite IH.
Qed.

Lemma select_seq {T : Type} (a : list T) : select a (seq 0 (length a)) = a.
Proof. exact (select_seq_from [] a). Qed.

Lemma select_Permutation {T : Type} (a : list T) (idx idx' : list nat) :
  Permutation idx idx' -> Permutation (select a idx) (select a idx').
Proof.
  intros H; unfold select.
  induction H; simpl.
  - constructor.
  - now apply Permutation_app_head.
  - rewrite !app_assoc. apply Permutation_app_tail, Permutation_app_comm.
  - etransitivity; eassumption.
Qed.

(** ** The index permutation of the ranker *)

Lemma map_fst_combine {T U : Type} (l : list T) (l' : list U) :
  length l = length l' -> map fst (combine l l') = l.
Proof.
  revert l'; induction l as [|x l IH]; intros [|y l'] H; simpl in *;
    try discriminate; [reflexivity|].
  f_equal. apply IH. lia.
Qed.

Lemma Forall2_In_l {T U : Type} (R : T -> U -> Prop) (l : list T) (l' : list U) (x : T) :
  Forall2 R l l' -> In x l -> exists y, In y l' /\ R x y.
Proof.
  induction 1 as [|a b l l' Hab _ IH]; intros Hin; [destruct Hin|].
  destruct Hin as [<-|Hin].
  - exists b; split; [now left|assumption].
  - destruct (IH Hin) as (y & Hy & HR). exists y; split; [now right|assumption].
Qed.

Section Ranking.
Context {A : Type} {F : Arith A}.

Lemma insert_from_right_Permutation (p : nat * A) (acc : list (nat * A)) :
  Permutation (insert_from_right p acc) (p :: acc).
Proof.
  induction acc as [|q rest IH]; simpl; [reflexivity|].
  destruct (np_less (snd p) (snd q)); [|reflexivity].
  rewrite IH. apply perm_swap.
Qed.

Lemma fold_insert_Permutation (l acc : list (nat * A)) :
  Permutation (fold_left (fun acc p => insert_from_right p acc) l acc) (l ++ acc).
Proof.
  revert acc; induction l as [|p l IH]; intros acc; simpl; [reflexivity|].
  rewrite IH, insert_from_right_Permutation. symmetry; apply Permutation_middle.
Qed.

Lemma insertion_pass_Permutation (v : list A) :
  Permutation (insertion_pass v) (combine (seq 0 (length v)) v).
Proof.
  unfold insertion_pass. rewrite fold_insert_Permutation. now rewrite app_nil_r.
Qed.

(** [argsort] returns each index of the array once. *)
Lemma argsort_Permutation (v : list A) :
  Permutation (argsort v) (seq 0 (length v)).
Proof.
  unfold argsort.
  rewrite <- Permutation_rev, insertion_pass_Permutation.
  rewrite map_fst_combine; [reflexivity|apply length_seq].
Qed.

Lemma sorted_indices_Permutation (v : list A) :
  Permutation (sorted_indices v) (seq 0 (length v)).
Proof.
  unfold sorted_indices. rewrite <- Permutation_rev. apply argsort_Permutation.
Qed.

Lemma sorted_indices_length (v : list A) :
  length (sorted_indices v) = length v.
Proof.
  rewrite (Permutation_length (sorted_indices_Permutation v)). apply length_seq.
Qed.

Lemma sorted_indices_bound (v : list A) (i : nat) :
  In i (sorted_indices v) <-> i < length v.
Proof.
  split; intros H.
  - apply (Permutation_in _ (sorted_indices_Permutation v)) in H.
    apply in_seq in H; lia.
  - apply (Permutation_in _ (Permutation_sym (sorted_indices_Permutation v))).
    apply in_seq; lia.
Qed.

Lemma arange_from_1 (n : nat) : arange 1 (n + 1) = seq 1 n.
Proof. unfold arange. f_equal. lia. Qed.

(** The ranker as an equation: it succeeds exactly when every index of
    [averages] is an index of [student_names]. *)
Lemma rank_students_Ok (student_names : list string) (averages : list A) :
  length averages <= length student_names ->
  rank_students student_names averages =
    Ok (select student_names (sorted_indices averages),
        select averages (sorted_indices averages),
        seq 1 (length student_names)).
Proof.
  intros Hlen. unfold rank_students.
  destruct (take_in_bounds student_names (sorted_indices averages)) as (ns & Hns).
  { apply Forall_forall; intros i Hi. apply sorted_indices_bound in Hi. lia. }
  destruct (take_in_bounds averages (sorted_indices averages)) as (av & Hav).
  { apply Forall_forall; intros i Hi. now apply sorted_indices_bound in Hi. }
  rewrite Hns, Hav; simpl.
  now rewrite (take_select _ _ _ Hns), (take_select _ _ _ Hav), arange_from_1.
Qed.

Lemma rank_students_Raise (student_names : list string) (averages : list A) :
  length student_names < length averages ->
  rank_students student_names averages = Raise IndexError.
Proof.
  intros Hlen. unfold rank_students.
  destruct (take student_names (sorted_indices averages)) as [ns|e] eqn:Hns; simpl.
  - exfalso. apply take_Ok_iff in Hns.
    assert (Hin : In (length student_names) (sorted_indices averages))
      by now apply sorted_indices_bound.
    destruct (Forall2_In_l _ _ _ _ Hns Hin) as (y & _ & Hy).
    assert (length student_names < length student_names); [|lia].
    apply nth_error_Some. congruence.
  - apply take_Raise in Hns as [-> _]. reflexivity.
Qed.

End Ranking.

Lemma Forall2_nth_error {T U : Type} (R : T -> U -> Prop) (l : list T) (l' : list U) :
  Forall2 R l l' ->
  forall k x, nth_error l k = Some x -> exists y, nth_error l' k = Some y /\ R x y.
Proof.
  induction 1 as [|a b l l' Hab _ IH]; intros [|k] x Hk; simpl in *; try discriminate.
  - injection Hk as <-. exists b; split; [reflexivity|assumption].
  - now apply IH.
Qed.

(** ** The insertion pass sorts, and sorts stably *)

Lemma StronglySorted_app {T : Type} (R : T -> T -> Prop) (l1 l2 : list T) :
  StronglySorted R l1 -> StronglySorted R l2 ->
  (forall x y, In x l1 -> In y l2 -> R x y) ->
  StronglySorted R (l1 ++ l2).
Proof.
  induction 1 as [|x l1 Hs IH Hx]; intros H2 H12; simpl; [assumption|].
  constructor.
  - apply IH; [assumption|]. intros a b Ha Hb; apply H12; [now right|assumption].
  - apply Forall_app; split; [assumption|].
    apply Forall_forall; intros y Hy. apply H12; [now left|assumption].
Qed.

Lemma StronglySorted_rev {T : Type} (R : T -> T -> Prop) (l : list T) :
  StronglySorted (fun x y => R y x) l -> StronglySorted R (rev l).
Proof.
  induction 1 as [|x l Hs IH Hx]; simpl; [constructor|].
  apply StronglySorted_app; [assumption|repeat constructor|].
  intros a b Ha [<-|[]]. rewrite Forall_forall in Hx. apply Hx. now apply in_rev.
Qed.

Lemma StronglySorted_map {T U : Type} (R : T -> T -> Prop) (R' : U -> U -> Prop)
      (f : T -> U) (l : list T) :
  StronglySorted R l ->
  (forall x y, In x l -> In y l -> R x y -> R' (f x) (f y)) ->
  StronglySorted R' (map f l).
Proof.
  induction 1 as [|x l Hs IH Hx]; intros Hf; simpl; constructor.
  - apply IH. intros a b Ha Hb; apply Hf; now right.
  - apply Forall_map. rewrite Forall_forall in *. intros y Hy.
    apply Hf; [now left|now right|now apply Hx].
Qed.

Lemma StronglySorted_nth_error {T : Type} (R : T -> T -> Prop) (l : list T) :
  StronglySorted R l ->
  forall p q x y, p < q -> nth_error l p = Some x -> nth_error l q = Some y -> R x y.
Proof.
  induction 1 as [|a l Hs IH Ha]; intros p q x y Hpq Hp Hq.
  - destruct p; discriminate.
  - destruct q as [|q]; [lia|]. simpl in Hq.
    destruct p as [|p]; simpl in Hp.
    + injection Hp as <-. rewrite Forall_forall in Ha. apply Ha.
      eapply nth_error_In; eassumption.
    + apply (IH p q); [lia|assumption|assumption].
Qed.

Lemma in_combine_seq {T : Type} (v : list T) (s i : nat) (a : T) :
  In (i, a) (combine (seq s (length v)) v) -> s <= i /\ nth_error v (i - s) = Some a.
Proof.
  revert s; induction v as [|x v IH]; intros s; simpl; [contradiction|].
  intros [H|H].
  - injection H as <- <-. rewrite Nat.sub_diag. split; [lia|reflexivity].
  - apply IH in H as [Hle Hn]. split; [lia|].
    replace (i - s) with (S (i - S s)) by lia. exact Hn.
Qed.

Section Stability.
Context {A : Type} {F : Arith A}.
Hypothesis np_less_swo : strict_weak_order (np_less (A := A)).

Lemma np_less_irrefl (a : A) : np_less a a = false.
Proof.
  destruct (np_less a a) eqn:H; [|reflexivity].
  now rewrite (proj1 np_less_swo a a H) in H.
Qed.

(** Inserting an entry whose index exceeds every index of the sorted prefix
    keeps the prefix sorted and stable. *)
Lemma insert_from_right_sorted (p : nat * A) (acc : list (nat * A)) :
  StronglySorted (fun q r => entry_before r q) acc ->
  Forall (fun r => fst r < fst p) acc ->
  StronglySorted (fun q r => entry_before r q) (insert_from_right p acc).
Proof.
  destruct np_less_swo as [Hasym Hneg].
  induction 1 as [|q rest Hs IH Hq]; intros Hidx; simpl.
  - repeat constructor.
  - inversion Hidx as [|? ? Hq_idx Hrest_idx]; subst.
    destruct (np_less (snd p) (snd q)) eqn:Hpq.
    + constructor; [now apply IH|].
      apply Forall_forall; intros r Hr.
      apply (Permutation_in _ (insert_from_right_Permutation p rest)) in Hr.
      destruct Hr as [<-|Hr].
      * split; [now apply Hasym|].
        intros Heq; rewrite Heq, np_less_irrefl in Hpq; discriminate.
      * rewrite Forall_forall in Hq; now apply Hq.
    + constructor; [now constructor|].
      constructor.
      * split; [assumption|intros _; assumption].
      * rewrite Forall_forall in *. intros r Hr. split.
        -- destruct (np_less (snd p) (snd r)) eqn:Hpr; [|reflexivity].
           destruct (Hneg _ (snd q) _ Hpr) as [H|H]; [congruence|].
           destruct (Hq r Hr) as [Hqr _]; congruence.
        -- intros _; now apply Hrest_idx.
Qed.

Lemma fold_insert_sorted (v : list A) (s : nat) (acc : list (nat * A)) :
  StronglySorted (fun q r => entry_before r q) acc ->
  Forall (fun r => fst r < s) acc ->
  StronglySorted (fun q r => entry_before r q)
    (fold_left (fun acc p => insert_from_right p acc) (combine (seq s (length v)) v) acc).
Proof.
  revert s acc; induction v as [|x v IH]; intros s acc Hs Hidx; simpl; [assumption|].
  apply IH.
  - now apply insert_from_right_sorted.
  - apply Forall_forall; intros r Hr.
    apply (Permutation_in _ (insert_from_right_Permutation _ _)) in Hr.
    destruct Hr as [<-|Hr]; simpl; [lia|].
    rewrite Forall_forall in Hidx. specialize (Hidx r Hr). lia.
Qed.

Lemma insertion_pass_sorted (v : list A) :
  StronglySorted (fun q r => entry_before r q) (insertion_pass v).
Proof. apply fold_insert_sorted; constructor. Qed.

Lemma insertion_pass_entries (v : list A) (i : nat) (a : A) :
  In (i, a) (insertion_pass v) -> nth_error v i = Some a.
Proof.
  intros H. apply (Permutation_in _ (insertion_pass_Permutation v)) in H.
  apply in_combine_seq in H as [_ H]. now rewrite Nat.sub_0_r in H.
Qed.

(** [argsort] is ascending and stable. *)
Lemma argsort_sorted (v : list A) :
  StronglySorted (before_asc_stable v) (argsort v).
Proof.
  unfold argsort.
  apply StronglySorted_map with (R := entry_before).
  - apply StronglySorted_rev, insertion_pass_sorted.
  - intros [i a] [j b] Hi Hj Hij. apply in_rev in Hi, Hj.
    exists a, b. repeat split; try (now apply insertion_pass_entries); apply Hij.
Qed.

(** [argsort(v)[::-1]] is descending, and among equal values the larger
    index comes first. *)
Lemma sorted_indices_sorted (v : list A) :
  StronglySorted (fun i j => before_asc_stable v j i) (sorted_indices v).
Proof.
  unfold sorted_indices. apply StronglySorted_rev.
  apply argsort_sorted.
Qed.

End Stability.

(** ** The two comparisons are strict weak orders *)

Lemma sf_less_rank (a b : spec_float) :
  sf_less a b = true <-> lex_lt (sf_rank a) (sf_rank b).
Proof.
  unfold sf_less, sf_isnan, SFltb, SFeqb.
  destruct a as [[]|[]| |[] ma ea], b as [[]|[]| |[] mb eb]; simpl;
    try (split; [discriminate|lia]); try (split; [lia|reflexivity]);
    change (Pos.compare_cont Eq ?x ?y) with (Pos.compare x y);
    rewrite ?Pos.compare_refl, ?Z.compare_refl; simpl;
    try (split; [discriminate|lia]); try (split; [lia|reflexivity]).
  all: destruct (Z.compare_spec ea eb); simpl;
    try (split; [discriminate|lia]); try (split; [lia|reflexivity]).
  all: destruct (Pos.compare_spec ma mb); simpl;
    try (split; [discriminate|lia]); try (split; [lia|reflexivity]).
Qed.

Lemma lex_lt_asym (x y : Z * Z * Z) : lex_lt x y -> ~ lex_lt y x.
Proof. destruct x as [[a b] c], y as [[a' b'] c']; simpl; lia. Qed.

Lemma lex_lt_negtrans (x y z : Z * Z * Z) : lex_lt x z -> lex_lt x y \/ lex_lt y z.
Proof.
  destruct x as [[a b] c], y as [[a' b'] c'], z as [[a'' b''] c'']; simpl; lia.
Qed.

Lemma binary64_np_less (a b : float) :
  np_less a b = sf_less (Prim2SF a) (Prim2SF b).
Proof.
  unfold np_less, sf_less, sf_isnan; simpl. unfold PrimFloat.is_nan.
  now rewrite FloatAxioms.ltb_spec, !FloatAxioms.eqb_spec.
Qed.

(** NumPy's order on float64 (with NaN last) is a strict weak order. *)
Lemma binary64_np_less_swo : strict_weak_order (np_less (A := float)).
Proof.
  split.
  - intros a b H. rewrite binary64_np_less in *.
    apply sf_less_rank in H. apply lex_lt_asym in H.
    destruct (sf_less (Prim2SF b) (Prim2SF a)) eqn:E; [|reflexivity].
    apply sf_less_rank in E. contradiction.
  - intros a b c H. rewrite !binary64_np_less in *.
    apply sf_less_rank in H.
    destruct (lex_lt_negtrans _ (sf_rank (Prim2SF b)) _ H) as [H'|H'];
      [left|right]; now apply sf_less_rank.
Qed.

Lemma exact_np_less (a b : R) : np_less a b = true <-> (a < b)%R.
Proof.
  unfold np_less; simpl. rewrite orb_false_r. unfold Rltb.
  destruct (Rlt_dec a b); split; auto; discriminate.
Qed.

Lemma exact_np_less_swo : strict_weak_order (np_less (A := R)).
Proof.
  split.
  - intros a b H. apply exact_np_less in H.
    destruct (np_less b a) eqn:E; [|reflexivity].
    apply exact_np_less in E. lra.
  - intros a b c H. apply exact_np_less in H.
    destruct (Rlt_dec a b) as [Hab|Hab]; [left|right]; apply exact_np_less; lra.
Qed.

(** ** The statistics engine on a well-formed matrix *)

Section Engine.
Context {A : Type} {F : Arith A}.

Lemma mapM_reduce1 (op : A -> A -> A) (l : list (list A)) :
  Forall (fun r => r <> []) l ->
  exists ys, mapM (reduce1 op) l = Ok ys.
Proof.
  induction 1 as [|r l Hr _ (ys & IH)]; simpl.
  - now exists [].
  - destruct r as [|x xs]; [contradiction|]. simpl.
    rewrite IH; simpl. eexists; reflexivity.
Qed.

Lemma reduce_axis1_Ok (op : A -> A -> A) (m : ndarray2 A) :
  wf m -> 1 <= ncols m ->
  exists ys, reduce_axis1 op m = Ok ys /\
             Forall2 (fun r y => reduce1 op r = Ok y) (rows m) ys.
Proof.
  intros Hwf Hc. unfold reduce_axis1.
  destruct (Nat.eqb_spec (ncols m) 0) as [E|_]; [lia|].
  destruct (mapM_reduce1 op (rows m)) as (ys & Hys).
  - eapply Forall_impl; [|exact Hwf]. intros r Hr ->. simpl in Hr. lia.
  - exists ys; split; [assumption|]. now apply mapM_Ok_Forall2.
Qed.

(** With at least one column nothing raises: the means and the standard
    deviations are computed row by row, and so are the extrema. *)
Lemma calculate_student_statistics_Ok (m : ndarray2 A) :
  wf m -> 1 <= ncols m ->
  exists maxs mins,
    calculate_student_statistics m
      = Ok (np_mean_axis1 m, maxs, mins, np_std_axis1 0 m) /\
    Forall2 (fun r y => reduce1 maximum r = Ok y) (rows m) maxs /\
    Forall2 (fun r y => reduce1 minimum r = Ok y) (rows m) mins.
Proof.
  intros Hwf Hc.
  destruct (reduce_axis1_Ok maximum m Hwf Hc) as (maxs & Hmax & Hmaxs).
  destruct (reduce_axis1_Ok minimum m Hwf Hc) as (mins & Hmin & Hmins).
  exists maxs, mins. split; [|split; assumption].
  unfold calculate_student_statistics, np_max_axis1, np_min_axis1.
  now rewrite Hmax, Hmin.
Qed.

Lemma np_std_row_population (n : nat) (r : list A) :
  np_std_row 0 n r = population_stddev r (fdiv (np_sum r) (count n)) n.
Proof.
  unfold np_std_row, population_stddev. now rewrite Nat.sub_0_r, map_map.
Qed.

End Engine.

(** ** Exact arithmetic *)

Open Scope R_scope.

Lemma count_exact (n : nat) : count (A := R) n = INR n.
Proof. unfold count; simpl. symmetry; apply INR_IZR_INZ. Qed.

Lemma fold_left_Rplus (l : list R) (a : R) : fold_left Rplus l a = a + Rsum l.
Proof.
  revert a; induction l as [|x l IH]; intros a; simpl; [lra|].
  rewrite IH. lra.
Qed.

Lemma np_sum_exact (l : list R) : np_sum (A := R) l = Rsum l.
Proof. unfold np_sum; simpl. rewrite fold_left_Rplus. lra. Qed.

Lemma maximum_exact (a b : R) :
  (maximum a b = a \/ maximum a b = b) /\ a <= maximum a b /\ b <= maximum a b.
Proof.
  unfold maximum; simpl. unfold Rltb. destruct (Rlt_dec b a); split; auto; lra.
Qed.

Lemma minimum_exact (a b : R) :
  (minimum a b = a \/ minimum a b = b) /\ minimum a b <= a /\ minimum a b <= b.
Proof.
  unfold minimum; simpl. unfold Rltb. destruct (Rlt_dec a b); split; auto; lra.
Qed.

Lemma fold_maximum_is_max (xs : list R) (x : R) :
  is_max (fold_left maximum xs x) (x :: xs).
Proof.
  revert x; induction xs as [|y xs IH]; intros x; simpl.
  - split; [now left|]. constructor; [lra|constructor].
  - destruct (IH (maximum x y)) as [Hin Hall].
    destruct (maximum_exact x y) as (Hor & Hx & Hy).
    inversion Hall as [|? ? Hm Hxs]; subst.
    split.
    + destruct Hin as [<-|Hin].
      * destruct Hor as [->| ->]; simpl; auto.
      * simpl; auto.
    + constructor; [lra|]. constructor; [lra|assumption].
Qed.

Lemma fold_minimum_is_min (xs : list R) (x : R) :
  is_min (fold_left minimum xs x) (x :: xs).
Proof.
  revert x; induction xs as [|y xs IH]; intros x; simpl.
  - split; [now left|]. constructor; [lra|constructor].
  - destruct (IH (minimum x y)) as [Hin Hall].
    destruct (minimum_exact x y) as (Hor & Hx & Hy).
    inversion Hall as [|? ? Hm Hxs]; subst.
    split.
    + destruct Hin as [<-|Hin].
      * destruct Hor as [->| ->]; simpl; auto.
      * simpl; auto.
    + constructor; [lra|]. constructor; [lra|assumption].
Qed.

Lemma reduce1_maximum_is_max (r : list R) (y : R) :
  reduce1 maximum r = Ok y -> is_max y r.
Proof.
  destruct r as [|x xs]; simpl; [discriminate|].
  intros H; injection H as <-. apply fold_maximum_is_max.
Qed.

Lemma reduce1_minimum_is_min (r : list R) (y : R) :
  reduce1 minimum r = Ok y -> is_min y r.
Proof.
  destruct r as [|x xs]; simpl; [discriminate|].
  intros H; injection H as <-. apply fold_minimum_is_min.
Qed.

Lemma Rsum_lower (l : list R) (b : R) :
  Forall (fun x => b <= x) l -> INR (length l) * b <= Rsum l.
Proof.
  induction 1 as [|x l Hx _ IH]; [simpl; lra|].
  change (length (x :: l)) with (S (length l)). rewrite S_INR. simpl. lra.
Qed.

Lemma Rsum_upper (l : list R) (b : R) :
  Forall (fun x => x <= b) l -> Rsum l <= INR (length l) * b.
Proof.
  induction 1 as [|x l Hx _ IH]; [simpl; lra|].
  change (length (x :: l)) with (S (length l)). rewrite S_INR. simpl. lra.
Qed.

Lemma Rsum_constant (l : list R) (c : R) :
  Forall (fun x => x = c) l -> Rsum l = INR (length l) * c.
Proof.
  induction 1 as [|x l Hx _ IH]; [simpl; lra|].
  change (length (x :: l)) with (S (length l)). rewrite S_INR. simpl. lra.
Qed.

(** The mean of a non-empty row lies between any lower and any upper bound
    of the row. *)
Lemma mean_between (row : list R) (lo hi : R) :
  (1 <= length row)%nat ->
  Forall (fun x => lo <= x) row -> Forall (fun x => x <= hi) row ->
  lo <= Rsum row / INR (length row) <= hi.
Proof.
  intros Hn Hlo Hhi.
  assert (Hpos : 0 < INR (length row)) by (apply lt_0_INR; lia).
  pose proof (Rsum_lower _ _ Hlo). pose proof (Rsum_upper _ _ Hhi).
  split.
  - apply Rmult_le_reg_r with (INR (length row)); [assumption|].
    unfold Rdiv. rewrite Rmult_assoc, Rinv_l by lra. lra.
  - apply Rmult_le_reg_r with (INR (length row)); [assumption|].
    unfold Rdiv. rewrite Rmult_assoc, Rinv_l by lra. lra.
Qed.

Lemma Rsum_squares_nonneg (l : list R) : 0 <= Rsum (map (fun d => d * d) l).
Proof.
  induction l as [|d l IH]; simpl; [lra|]. pose proof (Rle_0_sqr d) as H.
  unfold Rsqr in H. lra.
Qed.

Lemma Rsum_squares_zero (l : list R) :
  Rsum (map (fun d => d * d) l) = 0 <-> Forall (fun d => d = 0) l.
Proof.
  induction l as [|d l IH]; simpl.
  - split; [constructor|reflexivity].
  - pose proof (Rsum_squares_nonneg l) as Hl.
    pose proof (Rle_0_sqr d) as Hd. unfold Rsqr in Hd.
    split.
    + intros H. assert (Hd0 : d * d = 0) by lra.
      constructor; [now apply Rsqr_0_uniq|]. apply IH. lra.
    + intros H; inversion H as [|? ? Hd0 Hrest]; subst.
      apply IH in Hrest. lra.
Qed.

(** In exact arithmetic the standard deviation of a non-empty row vanishes
    exactly when the row is constant. *)
Lemma std_zero_iff_constant (row : list R) :
  (1 <= length row)%nat ->
  np_std_row 0 (length row) row = 0 <->
  forall x y, In x row -> In y row -> x = y.
Proof.
  intros Hn.
  assert (Hpos : 0 < INR (length row)) by (apply lt_0_INR; lia).
  unfold np_std_row. rewrite Nat.sub_0_r, !np_sum_exact, count_exact. simpl.
  set (mu := Rsum row / INR (length row)).
  set (S := Rsum (map (fun d => d * d) (map (fun a => a - mu) row))).
  assert (HS : 0 <= S) by apply Rsum_squares_nonneg.
  assert (Hq : 0 <= S / INR (length row)).
  { apply Rmult_le_pos; [assumption|]. left; now apply Rinv_0_lt_compat. }
  assert (Hdev : S = 0 <-> forall x, In x row -> x = mu).
  { unfold S. rewrite Rsum_squares_zero, Forall_map, Forall_forall.
    split; intros H x Hx; specialize (H x Hx); lra. }
  split.
  - intros H. apply sqrt_eq_0 in H; [|assumption].
    assert (HS0 : S = 0).
    { apply Rmult_eq_reg_r with (/ INR (length row)).
      - unfold Rdiv in H. lra.
      - apply Rinv_neq_0_compat. lra. }
    pose proof (proj1 Hdev HS0) as Hall. intros x y Hx Hy.
    now rewrite (Hall x Hx), (Hall y Hy).
  - intros Hconst.
    assert (HS0 : S = 0).
    { apply Hdev. intros x Hx. unfold mu.
      rewrite (Rsum_constant row x).
      - field. lra.
      - apply Forall_forall. intros y Hy. now apply Hconst. }
    rewrite HS0. unfold Rdiv. rewrite Rmult_0_l. apply sqrt_0.
Qed.

(** The population standard deviation in exact arithmetic, written with the
    sum and the square root of the real numbers. *)
Lemma population_stddev_exact (row : list R) (mu : R) (C : nat) :
  population_stddev row mu C
  = R_sqrt.sqrt (Rsum (map (fun x => (x - mu) * (x - mu)) row) / INR C).
Proof.
  unfold population_stddev. now rewrite np_sum_exact, count_exact.
Qed.

Close Scope R_scope.

(** * The properties of the specification *)

(** ** Statistics engine: failure on an empty axis *)

(** C1. On a matrix that contains an empty row (so its rows have length
    C = 0) [calculate_student_statistics] raises and returns no statistics at
    all. The exception is NumPy's [ValueError] for a reduction of a zero-size
    axis with an operation that has no identity, raised by [np.max]; it is the
    program's realisation of the specification's ShapeError. *)
Theorem empty_row_raises :
  forall (A : Type) (F : Arith A) (marks : ndarray2 A),
    wf marks -> In [] (rows marks) ->
    calculate_student_statistics marks = Raise ValueError.
Proof.
  intros A F marks Hwf Hin.
  assert (Hc : ncols marks = 0).
  { unfold wf in Hwf. rewrite Forall_forall in Hwf. now rewrite <- (Hwf _ Hin). }
  unfold calculate_student_statistics, np_max_axis1, reduce_axis1.
  now rewrite Hc.
Qed.

Lemma empty_row_raises_witness :
  wf (np_array [[]; []] : ndarray2 float) /\
  In [] (rows (np_array [[]; []] : ndarray2 float)) /\
  calculate_student_statistics (np_array [[]; []] : ndarray2 float) = Raise ValueError.
Proof.
  assert (Hwf : wf (np_array [[]; []] : ndarray2 float)) by (repeat constructor).
  assert (Hin : In [] (rows (np_array [[]; []] : ndarray2 float))) by (simpl; auto).
  split; [exact Hwf|]. split; [exact Hin|].
  exact (empty_row_raises float binary64 _ Hwf Hin).
Defined.

(** ** Ranker *)

(** C3, as the program has it. [rank_students] checks no lengths: it fails,
    with NumPy's [IndexError], exactly when there are fewer labels than means,
    and returns a result exactly when every index of the means is an index of
    the labels. In particular it never fails on inputs of equal length. *)
Theorem rank_students_fails_iff_fewer_labels :
  forall (A : Type) (F : Arith A) (labels : list string) (means : list A),
    (rank_students labels means = Raise IndexError <-> length labels < length means) /\
    ((exists r, rank_students labels means = Ok r) <-> length means <= length labels) /\
    (length labels = length means -> exists r, rank_students labels means = Ok r).
Proof.
  intros A F labels means.
  destruct (le_lt_dec (length means) (length labels)) as [Hle|Hlt].
  - pose proof (rank_students_Ok labels means Hle) as H.
    repeat split.
    + rewrite H; discriminate.
    + lia.
    + intros _; assumption.
    + intros _; eexists; exact H.
    + intros _; eexists; exact H.
  - pose proof (rank_students_Raise labels means Hlt) as H.
    repeat split.
    + intros _; assumption.
    + intros _; assumption.
    + intros (r & Hr); rewrite H in Hr; discriminate.
    + lia.
    + lia.
Qed.

Lemma rank_students_fails_iff_fewer_labels_witness :
  length ["Alice"; "Bob"]%string = length [90; 70]%float /\
  exists r, rank_students ["Alice"; "Bob"]%string [90; 70]%float = Ok r.
Proof.
  split; [reflexivity|].
  exact (proj2 (proj2 (rank_students_fails_iff_fewer_labels float binary64
                         ["Alice"; "Bob"]%string [90; 70]%float)) eq_refl).
Defined.

(** C3 fails as stated: two labels and one mean differ in length, and
    [rank_students] returns a result (one name, one mean, two ranks). *)
Lemma rank_students_more_labels_than_means :
  length ["Alice"; "Bob"]%string <> length [90%float] /\
  rank_students ["Alice"; "Bob"]%string [90%float]
  = Ok (["Alice"]%string, [90%float], [1; 2]).
Proof. split; [discriminate|reflexivity]. Qed.

(** C6. On labels and means of one length R the ranked labels are a
    permutation of the labels (and the ranked means of the means), and the
    ranks are 1, 2, ..., R whatever the means are. *)
Theorem rank_students_permutation :
  forall (A : Type) (F : Arith A) (labels : list string) (means : list A),
    length labels = length means ->
    exists names avgs,
      rank_students labels means = Ok (names, avgs, seq 1 (length labels)) /\
      Permutation names labels /\
      Permutation avgs means.
Proof.
  intros A F labels means Hlen.
  exists (select labels (sorted_indices means)), (select means (sorted_indices means)).
  split; [apply rank_students_Ok; lia|].
  split.
  - etransitivity; [apply select_Permutation, sorted_indices_Permutation|].
    rewrite <- Hlen, select_seq. reflexivity.
  - etransitivity; [apply select_Permutation, sorted_indices_Permutation|].
    rewrite select_seq. reflexivity.
Qed.

Lemma rank_students_permutation_witness :
  length ["Alice"; "Bob"; "Eve"]%string = length [70; 90; 70]%float /\
  exists names avgs,
    rank_students ["Alice"; "Bob"; "Eve"]%string [70; 90; 70]%float
      = Ok (names, avgs, seq 1 (length ["Alice"; "Bob"; "Eve"]%string)) /\
    Permutation names ["Alice"; "Bob"; "Eve"]%string /\
    Permutation avgs [70; 90; 70]%float.
Proof.
  split; [reflexivity|].
  exact (rank_students_permutation float binary64
           ["Alice"; "Bob"; "Eve"]%string [70; 90; 70]%float eq_refl).
Defined.

(** C10. On labels and means of one length R the two ranked sequences are
    read through one permutation [idx] of the indices: position [k] of the
    ranked labels and position [k] of the ranked means both come from input
    index [idx[k]], so every label keeps its own mean. *)
Theorem rank_students_keeps_pairing :
  forall (A : Type) (F : Arith A) (labels : list string) (means : list A),
    length labels = length means ->
    exists names avgs ranks idx,
      rank_students labels means = Ok (names, avgs, ranks) /\
      Permutation idx (seq 0 (length labels)) /\
      forall k, k < length labels ->
        exists i l a,
          nth_error idx k = Some i /\
          nth_error labels i = Some l /\ nth_error means i = Some a /\
          nth_error names k = Some l /\ nth_error avgs k = Some a.
Proof.
  intros A F labels means Hlen.
  destruct (take_in_bounds labels (sorted_indices means)) as (ns & Hns).
  { apply Forall_forall; intros i Hi. apply sorted_indices_bound in Hi. lia. }
  destruct (take_in_bounds means (sorted_indices means)) as (av & Hav).
  { apply Forall_forall; intros i Hi. now apply sorted_indices_bound in Hi. }
  exists ns, av, (arange 1 (length labels + 1)), (sorted_indices means).
  split; [unfold rank_students; now rewrite Hns, Hav|].
  split; [rewrite Hlen; apply sorted_indices_Permutation|].
  intros k Hk.
  destruct (nth_error (sorted_indices means) k) as [i|] eqn:Hi.
  2:{ apply nth_error_None in Hi. rewrite sorted_indices_length in Hi. lia. }
  apply take_Ok_iff in Hns, Hav.
  destruct (Forall2_nth_error _ _ _ Hns k i Hi) as (l & Hl & Hli).
  destruct (Forall2_nth_error _ _ _ Hav k i Hi) as (a & Ha & Hai).
  exists i, l, a. auto.
Qed.

Lemma rank_students_keeps_pairing_witness :
  length ["Alice"; "Bob"; "Eve"]%string = length [70; 90; 70]%float /\
  exists names avgs ranks idx,
    rank_students ["Alice"; "Bob"; "Eve"]%string [70; 90; 70]%float
      = Ok (names, avgs, ranks) /\
    Permutation idx (seq 0 (length ["Alice"; "Bob"; "Eve"]%string)) /\
    forall k, k < length ["Alice"; "Bob"; "Eve"]%string ->
      exists i l a,
        nth_error idx k = Some i /\
        nth_error ["Alice"; "Bob"; "Eve"]%string i = Some l /\
        nth_error [70; 90; 70]%float i = Some a /\
        nth_error names k = Some l /\ nth_error avgs k = Some a.
Proof.
  split; [reflexivity|].
  exact (rank_students_keeps_pairing float binary64
           ["Alice"; "Bob"; "Eve"]%string [70; 90; 70]%float eq_refl).
Defined.

(** ** Matrix builder and the demo scenario *)

(** C9. The fixed data satisfy the invariants of the data model: the matrix
    has R = 5 rows, all of length C = 5, of non-negative numbers; there are R
    pairwise distinct student names, one per row, and C subject names, one
    per column. *)
Theorem create_student_data_invariants :
  let '(marks, student_names, subjects) := create_student_data in
  wf marks /\
  1 <= ncols marks /\
  1 <= nrows marks /\
  Forall (Forall (fun x => 0 <= x)%Z) (rows marks) /\
  NoDup student_names /\
  length student_names = nrows marks /\
  length subjects = ncols marks.
Proof.
  simpl. unfold wf, nrows; simpl.
  split; [repeat constructor|].
  split; [lia|]. split; [lia|].
  split; [repeat constructor; lia|].
  split; [|split; reflexivity].
  repeat constructor; simpl; intuition discriminate.
Qed.

(** C4. The demo scenario, in float64 as the program runs it. On the fixed
    5x5 matrix the means are 86.6, 82, 92.2, 71.6 and 87 (each literal stands
    for the float64 number nearest to it, which prints as 86.60, 82.00 and so
    on), and ranking the fixed labels by these means gives Charlie, Eve,
    Alice, Bob, David with means 92.2, 87, 86.6, 82, 71.6 and ranks
    1, 2, 3, 4, 5. *)
Theorem demo_scenario :
  let '(marks, student_names, _) := create_student_data in
  let means := [86.6; 82; 92.2; 71.6; 87]%float in
  (exists std_devs,
     calculate_student_statistics (astype marks)
     = Ok (means,
           [92; 88; 95; 75; 89]%float,
           [78; 76; 89; 68; 85]%float,
           std_devs)) /\
  rank_students student_names means
  = Ok (["Charlie"; "Eve"; "Alice"; "Bob"; "David"]%string,
        [92.2; 87; 86.6; 82; 71.6]%float,
        [1; 2; 3; 4; 5]).
Proof.
  vm_compute. split; [eexists|]; reflexivity.
Qed.


(** C2. [rank_students] reads labels and means through
    [np.argsort(averages)[::-1]]: the indices sorted by mean ascending,
    stably, and then reversed as a whole. So the ranking is descending by
    mean, and entities with equal means appear in the reverse of their row
    order. The comparison is any strict weak order; float64's is one
    ([binary64_np_less_swo]). *)
Theorem ranking_is_reversed_stable_sort :
  forall (A : Type) (F : Arith A),
    strict_weak_order (np_less (A := A)) ->
    forall (labels : list string) (means : list A),
      rank_students labels means
        = (names <- take labels (rev (argsort means)) ;;
           avgs <- take means (rev (argsort means)) ;;
           Ok (names, avgs, arange 1 (length labels + 1))) /\
      Permutation (argsort means) (seq 0 (length means)) /\
      StronglySorted (before_asc_stable means) (argsort means) /\
      forall p q i j a,
        p < q ->
        nth_error (sorted_indices means) p = Some i ->
        nth_error (sorted_indices means) q = Some j ->
        nth_error means i = Some a -> nth_error means j = Some a ->
        j < i.
Proof.
  intros A F Hswo labels means.
  split; [reflexivity|].
  split; [apply argsort_Permutation|].
  split; [now apply argsort_sorted|].
  intros p q i j a Hpq Hp Hq Hi Hj.
  pose proof (StronglySorted_nth_error _ _ (sorted_indices_sorted Hswo means)
                p q i j Hpq Hp Hq) as (b & c & Hb & Hc & _ & Hstable).
  simpl in Hstable. apply Hstable. congruence.
Qed.

Lemma ranking_is_reversed_stable_sort_witness :
  strict_weak_order (np_less (A := float)) /\
  let labels := ["Alice"; "Bob"; "Eve"]%string in
  let means := [70; 90; 70]%float in
  rank_students labels means
    = (names <- take labels (rev (argsort means)) ;;
       avgs <- take means (rev (argsort means)) ;;
       Ok (names, avgs, arange 1 (length labels + 1))) /\
  Permutation (argsort means) (seq 0 (length means)) /\
  StronglySorted (before_asc_stable means) (argsort means) /\
  forall p q i j a,
    p < q ->
    nth_error (sorted_indices means) p = Some i ->
    nth_error (sorted_indices means) q = Some j ->
    nth_error means i = Some a -> nth_error means j = Some a ->
    j < i.
Proof.
  split; [exact binary64_np_less_swo|].
  exact (ranking_is_reversed_stable_sort float binary64 binary64_np_less_swo
           ["Alice"; "Bob"; "Eve"]%string [70; 90; 70]%float).
Defined.

(** Alice (row 0) and Eve (row 2) have equal means: Eve is ranked first. *)
Example tie_order_is_reversed :
  rank_students ["Alice"; "Bob"; "Eve"]%string [70; 90; 70]%float
  = Ok (["Bob"; "Eve"; "Alice"]%string, [90; 70; 70]%float, [1; 2; 3]).
Proof. reflexivity. Qed.

(** ** Statistics engine *)

Lemma wf_row_length {A : Type} (marks : ndarray2 A) (i : nat) (row : list A) :
  wf marks -> nth_error (rows marks) i = Some row -> length row = ncols marks.
Proof.
  intros Hwf Hi. unfold wf in Hwf. rewrite Forall_forall in Hwf.
  apply Hwf. eapply nth_error_In; eassumption.
Qed.

(** C5. On a valid matrix with C >= 1 columns the standard deviation of row
    [i] is sqrt( sum((x - mean[i])^2 for x in row i) / C ), where mean[i] is
    the mean returned for that row: the population standard deviation, with
    divisor C ([np.std] with its default [ddof = 0]). The equation is in the
    arithmetic of the scalars, so it holds in float64 and in exact
    arithmetic alike. *)
Theorem std_devs_are_population :
  forall (A : Type) (F : Arith A) (marks : ndarray2 A),
    wf marks -> 1 <= ncols marks ->
    exists means maxs mins std_devs,
      calculate_student_statistics marks = Ok (means, maxs, mins, std_devs) /\
      forall i row,
        nth_error (rows marks) i = Some row ->
        exists mu,
          nth_error means i = Some mu /\
          nth_error std_devs i = Some (population_stddev row mu (ncols marks)).
Proof.
  intros A F marks Hwf Hc.
  destruct (calculate_student_statistics_Ok marks Hwf Hc) as (maxs & mins & Hcalc & _).
  exists (np_mean_axis1 marks), maxs, mins, (np_std_axis1 0 marks).
  split; [assumption|].
  intros i row Hi.
  exists (fdiv (np_sum row) (count (ncols marks))).
  unfold np_mean_axis1, np_std_axis1. rewrite !nth_error_map, Hi; simpl.
  split; [reflexivity|]. now rewrite np_std_row_population.
Qed.

Lemma std_devs_are_population_witness :
  let marks := np_array [[1; 3]; [2; 2]]%float in
  wf marks /\ 1 <= ncols marks /\
  exists means maxs mins std_devs,
    calculate_student_statistics marks = Ok (means, maxs, mins, std_devs) /\
    forall i row,
      nth_error (rows marks) i = Some row ->
      exists mu,
        nth_error means i = Some mu /\
        nth_error std_devs i = Some (population_stddev row mu (ncols marks)).
Proof.
  assert (Hwf : wf (np_array [[1; 3]; [2; 2]]%float)) by (repeat constructor).
  assert (Hc : 1 <= ncols (np_array [[1; 3]; [2; 2]]%float)) by (simpl; lia).
  split; [exact Hwf|]. split; [exact Hc|].
  exact (std_devs_are_population float binary64 _ Hwf Hc).
Defined.

(** The divisor matters: on the row 1, 3 the program returns 1, the
    population value, where the sample formula gives sqrt 2. *)
Example population_not_sample :
  calculate_student_statistics (np_array [[1; 3]]%float)
    = Ok ([2], [3], [1], [1])%float /\
  population_stddev [1; 3]%float 2%float 2 = 1%float /\
  sample_stddev [1; 3]%float 2%float 2 = 1.4142135623730951%float.
Proof. vm_compute. repeat split; reflexivity. Qed.

(** C7, as the program has it. On a valid matrix with R rows and C >= 1
    columns there are R means and mean[i] is the sum of row [i] divided by C,
    in the arithmetic of the scalars (so also in float64). In exact
    arithmetic mean[i] moreover lies between the minimum and the maximum
    returned for that row, which are the least and the greatest element of
    the row. *)
Theorem means_and_extrema :
  (forall (A : Type) (F : Arith A) (marks : ndarray2 A),
      wf marks -> 1 <= ncols marks ->
      exists means maxs mins std_devs,
        calculate_student_statistics marks = Ok (means, maxs, mins, std_devs) /\
        length means = nrows marks /\
        forall i row,
          nth_error (rows marks) i = Some row ->
          nth_error means i = Some (fdiv (np_sum row) (count (ncols marks)))) /\
  (forall marks : ndarray2 R,
      wf marks -> 1 <= ncols marks ->
      exists means maxs mins std_devs,
        calculate_student_statistics marks = Ok (means, maxs, mins, std_devs) /\
        length means = nrows marks /\
        forall i row,
          nth_error (rows marks) i = Some row ->
          exists mu mx mn,
            nth_error means i = Some mu /\
            nth_error maxs i = Some mx /\
            nth_error mins i = Some mn /\
            mu = (Rsum row / INR (ncols marks))%R /\
            is_min mn row /\ is_max mx row /\
            (mn <= mu <= mx)%R).
Proof.
  split.
  - intros A F marks Hwf Hc.
    destruct (calculate_student_statistics_Ok marks Hwf Hc) as (maxs & mins & Hcalc & _).
    exists (np_mean_axis1 marks), maxs, mins, (np_std_axis1 0 marks).
    split; [assumption|].
    split; [unfold np_mean_axis1, nrows; apply length_map|].
    intros i row Hi. unfold np_mean_axis1. now rewrite nth_error_map, Hi.
  - intros marks Hwf Hc.
    destruct (calculate_student_statistics_Ok marks Hwf Hc)
      as (maxs & mins & Hcalc & Hmaxs & Hmins).
    exists (np_mean_axis1 marks), maxs, mins, (np_std_axis1 0 marks).
    split; [assumption|].
    split; [unfold np_mean_axis1, nrows; apply length_map|].
    intros i row Hi.
    destruct (Forall2_nth_error _ _ _ Hmaxs i row Hi) as (mx & Hmx & Hrmx).
    destruct (Forall2_nth_error _ _ _ Hmins i row Hi) as (mn & Hmn & Hrmn).
    apply reduce1_maximum_is_max in Hrmx. apply reduce1_minimum_is_min in Hrmn.
    pose proof (wf_row_length marks i row Hwf Hi) as Hlen.
    exists (Rsum row / INR (ncols marks))%R, mx, mn.
    split.
    { unfold np_mean_axis1. rewrite nth_error_map, Hi. cbn [option_map].
      rewrite np_sum_exact, count_exact. reflexivity. }
    repeat (split; [assumption|]).
    split; [reflexivity|].
    repeat (split; [assumption|]).
    rewrite <- Hlen. apply mean_between; [lia|apply Hrmn|apply Hrmx].
Qed.

Lemma means_and_extrema_witness :
  let marks := np_array [[1; 2; 3]; [4; 4; 4]]%R in
  wf marks /\ 1 <= ncols marks /\
  exists means maxs mins std_devs,
    calculate_student_statistics marks = Ok (means, maxs, mins, std_devs) /\
    length means = nrows marks /\
    forall i row,
      nth_error (rows marks) i = Some row ->
      exists mu mx mn,
        nth_error means i = Some mu /\
        nth_error maxs i = Some mx /\
        nth_error mins i = Some mn /\
        mu = (Rsum row / INR (ncols marks))%R /\
        is_min mn row /\ is_max mx row /\
        (mn <= mu <= mx)%R.
Proof.
  assert (Hwf : wf (np_array [[1; 2; 3]; [4; 4; 4]]%R)) by (repeat constructor).
  assert (Hc : 1 <= ncols (np_array [[1; 2; 3]; [4; 4; 4]]%R)) by (simpl; lia).
  split; [exact Hwf|]. split; [exact Hc|].
  exact (proj2 means_and_extrema _ Hwf Hc).
Defined.

(** C7 fails in float64: on the valid one-row matrix 0.1, 0.1, 0.1 the sum
    rounds up to 0.30000000000000004 and the mean to 0.10000000000000002,
    above the maximum 0.1 of the row. *)
Lemma float64_mean_above_maximum :
  let marks := np_array [[0.1; 0.1; 0.1]]%float in
  wf marks /\ ncols marks = 3 /\
  calculate_student_statistics marks
    = Ok ([0.10000000000000002], [0.1], [0.1], [0x1p-56])%float /\
  (0.1 <? 0.10000000000000002)%float = true.
Proof.
  split; [repeat constructor|]. split; [reflexivity|].
  split; vm_compute; reflexivity.
Qed.

(** C8, in exact arithmetic. On a valid matrix with C >= 1 columns the
    standard deviation of row [i] is 0 if and only if all values of the row
    are equal. *)
Theorem exact_std_zero_iff_constant_row :
  forall marks : ndarray2 R,
    wf marks -> 1 <= ncols marks ->
    exists means maxs mins std_devs,
      calculate_student_statistics marks = Ok (means, maxs, mins, std_devs) /\
      forall i row,
        nth_error (rows marks) i = Some row ->
        exists sd,
          nth_error std_devs i = Some sd /\
          (sd = 0%R <-> forall x y, In x row -> In y row -> x = y).
Proof.
  intros marks Hwf Hc.
  destruct (calculate_student_statistics_Ok marks Hwf Hc) as (maxs & mins & Hcalc & _).
  exists (np_mean_axis1 marks), maxs, mins, (np_std_axis1 0 marks).
  split; [assumption|].
  intros i row Hi.
  pose proof (wf_row_length marks i row Hwf Hi) as Hlen.
  exists (np_std_row 0 (ncols marks) row).
  split; [unfold np_std_axis1; now rewrite nth_error_map, Hi|].
  rewrite <- Hlen. apply std_zero_iff_constant. lia.
Qed.

Lemma exact_std_zero_iff_constant_row_witness :
  let marks := np_array [[1; 2; 3]; [4; 4; 4]]%R in
  wf marks /\ 1 <= ncols marks /\
  exists means maxs mins std_devs,
    calculate_student_statistics marks = Ok (means, maxs, mins, std_devs) /\
    forall i row,
      nth_error (rows marks) i = Some row ->
      exists sd,
        nth_error std_devs i = Some sd /\
        (sd = 0%R <-> forall x y, In x row -> In y row -> x = y).
Proof.
  assert (Hwf : wf (np_array [[1; 2; 3]; [4; 4; 4]]%R)) by (repeat constructor).
  assert (Hc : 1 <= ncols (np_array [[1; 2; 3]; [4; 4; 4]]%R)) by (simpl; lia).
  split; [exact Hwf|]. split; [exact Hc|].
  exact (exact_std_zero_iff_constant_row _ Hwf Hc).
Defined.

(** C8 fails in float64, in both directions. All values of the row
    0.1, 0.1, 0.1 are equal, yet its mean is 0.10000000000000002, every
    deviation is -2^-56, and the standard deviation is 2^-56 (about
    1.39e-17), not 0. The values of the row 0, 1e-200 differ, yet the squares
    of the deviations underflow and the standard deviation is 0. *)
Lemma float64_std_zero_not_iff_constant_row :
  let row := [0.1; 0.1; 0.1]%float in
  let row' := [0; 1e-200]%float in
  ((forall x y, In x row -> In y row -> x = y) /\
   wf (np_array [row]) /\
   calculate_student_statistics (np_array [row])
     = Ok ([0.10000000000000002], [0.1], [0.1], [0x1p-56])%float /\
   (0x1p-56 =? 0)%float = false) /\
  ((0 =? 1e-200)%float = false /\
   wf (np_array [row']) /\
   calculate_student_statistics (np_array [row'])
     = Ok ([5e-201], [1e-200], [0], [0])%float).
Proof.
  split.
  - split.
    { simpl. intros x y Hx Hy.
      repeat (destruct Hx as [<-|Hx]; [|]); try contradiction;
        repeat (destruct Hy as [<-|Hy]; [|]); try contradiction; reflexivity. }
    split; [repeat constructor|].
    split; vm_compute; reflexivity.
  - split; [vm_compute; reflexivity|].
    split; [repeat constructor|].
    vm_compute; reflexivity.
Qed.

(** * Further properties of the engine and the ranker *)

(** ** Statistics engine *)

(** On a valid matrix with at least one column the engine does not fail and
    returns four sequences with one entry per row. *)
Theorem statistics_have_one_entry_per_row :
  forall (A : Type) (F : Arith A) (marks : ndarray2 A),
    wf marks -> 1 <= ncols marks ->
    exists means maxs mins std_devs,
      calculate_student_statistics marks = Ok (means, maxs, mins, std_devs) /\
      length means = nrows marks /\
      length maxs = nrows marks /\
      length mins = nrows marks /\
      length std_devs = nrows marks.
Proof.
  intros A F marks Hwf Hc.
  destruct (calculate_student_statistics_Ok marks Hwf Hc)
    as (maxs & mins & Hcalc & Hmaxs & Hmins).
  exists (np_mean_axis1 marks), maxs, mins, (np_std_axis1 0 marks).
  split; [assumption|].
  unfold np_mean_axis1, np_std_axis1, nrows. rewrite !length_map.
  apply Forall2_length in Hmaxs, Hmins. auto.
Qed.

Lemma statistics_have_one_entry_per_row_witness :
  let marks := np_array [[1; 3]; [2; 2]; [5; 0]]%float in
  wf marks /\ 1 <= ncols marks /\
  exists means maxs mins std_devs,
    calculate_student_statistics marks = Ok (means, maxs, mins, std_devs) /\
    length means = nrows marks /\
    length maxs = nrows marks /\
    length mins = nrows marks /\
    length std_devs = nrows marks.
Proof.
  assert (Hwf : wf (np_array [[1; 3]; [2; 2]; [5; 0]]%float)) by (repeat constructor).
  assert (Hc : 1 <= ncols (np_array [[1; 3]; [2; 2]; [5; 0]]%float)) by (simpl; lia).
  split; [exact Hwf|]. split; [exact Hc|].
  exact (statistics_have_one_entry_per_row float binary64 _ Hwf Hc).
Defined.

Lemma fold_left_choice {T : Type} (op : T -> T -> T) :
  (forall a b, op a b = a \/ op a b = b) ->
  forall xs x, In (fold_left op xs x) (x :: xs).
Proof.
  intros Hop xs; induction xs as [|y xs IH]; intros x; simpl; [now left|].
  destruct (IH (op x y)) as [H|H]; [|now right; right].
  rewrite <- H. destruct (Hop x y) as [-> | ->]; auto.
Qed.

Lemma maximum_choice {A : Type} {F : Arith A} (a b : A) :
  maximum a b = a \/ maximum a b = b.
Proof. unfold maximum. destruct (fisnan a), (flt b a); auto. Qed.

Lemma minimum_choice {A : Type} {F : Arith A} (a b : A) :
  minimum a b = a \/ minimum a b = b.
Proof. unfold minimum. destruct (fisnan a), (flt a b); auto. Qed.

Lemma reduce1_choice {A : Type} {F : Arith A} (op : A -> A -> A) (r : list A) (y : A) :
  (forall a b, op a b = a \/ op a b = b) -> reduce1 op r = Ok y -> In y r.
Proof.
  intros Hop. destruct r as [|x xs]; simpl; [discriminate|].
  intros H; injection H as <-. now apply fold_left_choice.
Qed.

(** In every arithmetic, NaN included, the maximum and the minimum returned
    for a row are marks of that row: the engine never invents an extreme. *)
Theorem extrema_are_marks_of_the_row :
  forall (A : Type) (F : Arith A) (marks : ndarray2 A),
    wf marks -> 1 <= ncols marks ->
    exists means maxs mins std_devs,
      calculate_student_statistics marks = Ok (means, maxs, mins, std_devs) /\
      forall i row,
        nth_error (rows marks) i = Some row ->
        exists mx mn,
          nth_error maxs i = Some mx /\ nth_error mins i = Some mn /\
          In mx row /\ In mn row.
Proof.
  intros A F marks Hwf Hc.
  destruct (calculate_student_statistics_Ok marks Hwf Hc)
    as (maxs & mins & Hcalc & Hmaxs & Hmins).
  exists (np_mean_axis1 marks), maxs, mins, (np_std_axis1 0 marks).
  split; [assumption|].
  intros i row Hi.
  destruct (Forall2_nth_error _ _ _ Hmaxs i row Hi) as (mx & Hmx & Hrmx).
  destruct (Forall2_nth_error _ _ _ Hmins i row Hi) as (mn & Hmn & Hrmn).
  exists mx, mn. repeat split; try assumption.
  - eapply reduce1_choice; [apply maximum_choice|eassumption].
  - eapply reduce1_choice; [apply minimum_choice|eassumption].
Qed.

Lemma extrema_are_marks_of_the_row_witness :
  let marks := np_array [[1; nan; 3]; [2; 2; 7]]%float in
  wf marks /\ 1 <= ncols marks /\
  exists means maxs mins std_devs,
    calculate_student_statistics marks = Ok (means, maxs, mins, std_devs) /\
    forall i row,
      nth_error (rows marks) i = Some row ->
      exists mx mn,
        nth_error maxs i = Some mx /\ nth_error mins i = Some mn /\
        In mx row /\ In mn row.
Proof.
  assert (Hwf : wf (np_array [[1; nan; 3]; [2; 2; 7]]%float)) by (repeat constructor).
  assert (Hc : 1 <= ncols (np_array [[1; nan; 3]; [2; 2; 7]]%float)) by (simpl; lia).
  split; [exact Hwf|]. split; [exact Hc|].
  exact (extrema_are_marks_of_the_row float binary64 _ Hwf Hc).
Defined.

Lemma Rsum_squares_upper (l : list R) (b : R) :
  Forall (fun d => (d * d <= b)%R) l ->
  (Rsum (map (fun d => d * d) l) <= INR (length l) * b)%R.
Proof.
  intros H. rewrite <- (length_map (fun d => (d * d)%R) l).
  apply Rsum_upper. now apply Forall_map.
Qed.

(** In exact arithmetic the standard deviation of a non-empty row is at
    least 0 and at most the spread between any lower and any upper bound of
    the row. *)
Lemma std_between_zero_and_spread (row : list R) (lo hi : R) :
  1 <= length row ->
  Forall (fun x => (lo <= x)%R) row -> Forall (fun x => (x <= hi)%R) row ->
  (0 <= np_std_row 0 (length row) row <= hi - lo)%R.
Proof.
  intros Hn Hlo Hhi.
  assert (Hpos : (0 < INR (length row))%R) by (apply lt_0_INR; lia).
  destruct (mean_between row lo hi Hn Hlo Hhi) as [Hmlo Hmhi].
  unfold np_std_row. rewrite Nat.sub_0_r, !np_sum_exact, count_exact. simpl.
  set (mu := (Rsum row / INR (length row))%R) in *.
  split; [apply sqrt_pos|].
  assert (Hspread : (0 <= hi - lo)%R) by lra.
  rewrite <- (sqrt_square (hi - lo)) by assumption.
  apply sqrt_le_1_alt.
  apply Rmult_le_reg_r with (INR (length row)); [assumption|].
  unfold Rdiv. rewrite Rmult_assoc, Rinv_l, Rmult_1_r by lra.
  rewrite (Rmult_comm _ (INR (length row))).
  replace (INR (length row))
    with (INR (length (map (fun a => (a - mu)%R) row))) by now rewrite length_map.
  apply Rsum_squares_upper. apply Forall_map.
  rewrite Forall_forall in *. intros x Hx.
  specialize (Hlo x Hx). specialize (Hhi x Hx). nra.
Qed.

(** In exact arithmetic every standard deviation returned lies between 0 and
    the difference of the maximum and the minimum returned for the same row. *)
Theorem exact_std_between_zero_and_range :
  forall marks : ndarray2 R,
    wf marks -> 1 <= ncols marks ->
    exists means maxs mins std_devs,
      calculate_student_statistics marks = Ok (means, maxs, mins, std_devs) /\
      forall i mx mn sd,
        nth_error maxs i = Some mx -> nth_error mins i = Some mn ->
        nth_error std_devs i = Some sd ->
        (0 <= sd <= mx - mn)%R.
Proof.
  intros marks Hwf Hc.
  destruct (calculate_student_statistics_Ok marks Hwf Hc)
    as (maxs & mins & Hcalc & Hmaxs & Hmins).
  exists (np_mean_axis1 marks), maxs, mins, (np_std_axis1 0 marks).
  split; [assumption|].
  intros i mx mn sd Hmx Hmn Hsd.
  unfold np_std_axis1 in Hsd. rewrite nth_error_map in Hsd.
  destruct (nth_error (rows marks) i) as [row|] eqn:Hi; [|discriminate].
  injection Hsd as <-.
  destruct (Forall2_nth_error _ _ _ Hmaxs i row Hi) as (mx' & Hmx' & Hrmx).
  destruct (Forall2_nth_error _ _ _ Hmins i row Hi) as (mn' & Hmn' & Hrmn).
  assert (mx' = mx) by congruence. assert (mn' = mn) by congruence. subst.
  apply reduce1_maximum_is_max in Hrmx. apply reduce1_minimum_is_min in Hrmn.
  pose proof (wf_row_length marks i row Hwf Hi) as Hlen.
  rewrite <- Hlen.
  apply std_between_zero_and_spread; [lia|apply Hrmn|apply Hrmx].
Qed.

Lemma exact_std_between_zero_and_range_witness :
  let marks := np_array [[1; 2; 3]; [4; 4; 4]]%R in
  wf marks /\ 1 <= ncols marks /\
  exists means maxs mins std_devs,
    calculate_student_statistics marks = Ok (means, maxs, mins, std_devs) /\
    forall i mx mn sd,
      nth_error maxs i = Some mx -> nth_error mins i = Some mn ->
      nth_error std_devs i = Some sd ->
      (0 <= sd <= mx - mn)%R.
Proof.
  assert (Hwf : wf (np_array [[1; 2; 3]; [4; 4; 4]]%R)) by (repeat constructor).
  assert (Hc : 1 <= ncols (np_array [[1; 2; 3]; [4; 4; 4]]%R)) by (simpl; lia).
  split; [exact Hwf|]. split; [exact Hc|].
  exact (exact_std_between_zero_and_range _ Hwf Hc).
Defined.

(** ** Ranker *)

Section RankerResults.
Context {A : Type} {F : Arith A}.

(** What a result of the ranker is made of. *)
Lemma rank_students_inv (labels : list string) (means : list A)
      (names : list string) (avgs : list A) (ranks : list nat) :
  rank_students labels means = Ok (names, avgs, ranks) ->
  take labels (sorted_indices means) = Ok names /\
  take means (sorted_indices means) = Ok avgs /\
  ranks = seq 1 (length labels).
Proof.
  unfold rank_students.
  destruct (take labels (sorted_indices means)) as [ns|e]; simpl; [|discriminate].
  destruct (take means (sorted_indices means)) as [av|e]; simpl; [|discriminate].
  intros H; injection H as <- <- <-. now rewrite arange_from_1.
Qed.

Lemma Forall2_nth_error_r {T U : Type} (R : T -> U -> Prop) (l : list T) (l' : list U) :
  Forall2 R l l' ->
  forall k y, nth_error l' k = Some y -> exists x, nth_error l k = Some x /\ R x y.
Proof.
  induction 1 as [|a b l l' Hab _ IH]; intros [|k] y Hk; simpl in *; try discriminate.
  - injection Hk as <-. exists a; split; [reflexivity|assumption].
  - now apply IH.
Qed.

(** Every input mean stands at some position of the ranked means. *)
Lemma ranked_position (means avgs : list A) (a : A) :
  take means (sorted_indices means) = Ok avgs ->
  In a means -> exists q, nth_error avgs q = Some a.
Proof.
  intros Htake Hin.
  apply In_nth_error in Hin as (i & Hi).
  assert (Hidx : In i (sorted_indices means)).
  { apply sorted_indices_bound. apply nth_error_Some. congruence. }
  apply In_nth_error in Hidx as (q & Hq).
  apply take_Ok_iff in Htake.
  destruct (Forall2_nth_error _ _ _ Htake q i Hq) as (b & Hb & Hib).
  exists q. congruence.
Qed.

End RankerResults.

(** Whenever the ranker returns, it returns one name and one mean per input
    mean, but one rank per input label: with more labels than means the ranks
    outnumber the names. *)
Theorem rank_students_result_lengths :
  forall (A : Type) (F : Arith A) (labels : list string) (means : list A)
         (names : list string) (avgs : list A) (ranks : list nat),
    rank_students labels means = Ok (names, avgs, ranks) ->
    length names = length means /\
    length avgs = length means /\
    ranks = seq 1 (length labels) /\
    length means <= length labels.
Proof.
  intros A F labels means names avgs ranks H.
  pose proof (rank_students_inv _ _ _ _ _ H) as (Hn & Ha & Hr).
  apply take_Ok_iff in Hn, Ha.
  apply Forall2_length in Hn, Ha. rewrite sorted_indices_length in Hn, Ha.
  repeat split; try congruence.
  destruct (le_lt_dec (length means) (length labels)) as [Hle|Hlt]; [assumption|].
  rewrite (rank_students_Raise labels means Hlt) in H. discriminate.
Qed.

Lemma rank_students_result_lengths_witness :
  rank_students ["Alice"; "Bob"; "Eve"]%string [70; 90]%float
    = Ok (["Bob"; "Alice"]%string, [90; 70]%float, [1; 2; 3]) /\
  length ["Bob"; "Alice"]%string = length [70; 90]%float /\
  length [90; 70]%float = length [70; 90]%float /\
  [1; 2; 3] = seq 1 (length ["Alice"; "Bob"; "Eve"]%string) /\
  length [70; 90]%float <= length ["Alice"; "Bob"; "Eve"]%string.
Proof.
  assert (H : rank_students ["Alice"; "Bob"; "Eve"]%string [70; 90]%float
              = Ok (["Bob"; "Alice"]%string, [90; 70]%float, [1; 2; 3]))
    by reflexivity.
  split; [exact H|].
  exact (rank_students_result_lengths float binary64 _ _ _ _ _ H).
Defined.

(** The ranked means are in descending order ("highest to lowest"): no
    ranked mean sorts before a mean ranked after it. *)
Theorem ranked_means_descend :
  forall (A : Type) (F : Arith A),
    strict_weak_order (np_less (A := A)) ->
    forall (labels : list string) (means : list A)
           (names : list string) (avgs : list A) (ranks : list nat),
      rank_students labels means = Ok (names, avgs, ranks) ->
      forall p q a b,
        p < q -> nth_error avgs p = Some a -> nth_error avgs q = Some b ->
        np_less a b = false.
Proof.
  intros A F Hswo labels means names avgs ranks H p q a b Hpq Hp Hq.
  pose proof (rank_students_inv _ _ _ _ _ H) as (_ & Ha & _).
  apply take_Ok_iff in Ha.
  destruct (Forall2_nth_error_r _ _ _ Ha p a Hp) as (i & Hi & Hia).
  destruct (Forall2_nth_error_r _ _ _ Ha q b Hq) as (j & Hj & Hjb).
  pose proof (StronglySorted_nth_error _ _ (sorted_indices_sorted Hswo means)
                p q i j Hpq Hi Hj) as (b' & a' & Hb' & Ha' & Hless & _).
  simpl in Hless. congruence.
Qed.

Lemma ranked_means_descend_witness :
  strict_weak_order (np_less (A := float)) /\
  rank_students ["Alice"; "Bob"; "Eve"]%string [70; 90; 70]%float
    = Ok (["Bob"; "Eve"; "Alice"]%string, [90; 70; 70]%float, [1; 2; 3]) /\
  forall p q a b,
    p < q ->
    nth_error [90; 70; 70]%float p = Some a ->
    nth_error [90; 70; 70]%float q = Some b ->
    np_less a b = false.
Proof.
  assert (H : rank_students ["Alice"; "Bob"; "Eve"]%string [70; 90; 70]%float
              = Ok (["Bob"; "Eve"; "Alice"]%string, [90; 70; 70]%float, [1; 2; 3]))
    by reflexivity.
  split; [exact binary64_np_less_swo|]. split; [exact H|].
  exact (ranked_means_descend float binary64 binary64_np_less_swo _ _ _ _ _ H).
Defined.

(** A NaN mean ranks first: if some input mean is NaN, the mean at rank 1 is
    NaN. *)
Theorem nan_mean_ranks_first :
  forall (A : Type) (F : Arith A),
    strict_weak_order (np_less (A := A)) ->
    forall (labels : list string) (means : list A)
           (names : list string) (avgs : list A) (ranks : list nat),
      rank_students labels means = Ok (names, avgs, ranks) ->
      (exists a, In a means /\ fisnan a = true) ->
      exists top, nth_error avgs 0 = Some top /\ fisnan top = true.
Proof.
  intros A F Hswo labels means names avgs ranks H (a & Hin & Hnan).
  pose proof (rank_students_inv _ _ _ _ _ H) as (_ & Ha & _).
  destruct (ranked_position means avgs a Ha Hin) as (q & Hq).
  destruct q as [|q]; [now exists a|].
  destruct avgs as [|top rest]; [discriminate|].
  exists top; split; [reflexivity|].
  assert (Hless : np_less top a = false).
  { apply take_Ok_iff in Ha.
    destruct (Forall2_nth_error_r _ _ _ Ha 0 top eq_refl) as (i & Hi & Hitop).
    destruct (Forall2_nth_error_r _ _ _ Ha (S q) a Hq) as (j & Hj & Hja).
    assert (Hpq : 0 < S q) by lia.
    pose proof (StronglySorted_nth_error _ _ (sorted_indices_sorted Hswo means)
                  0 (S q) i j Hpq Hi Hj) as (b' & a' & Hb' & Ha' & Hless & _).
    simpl in Hless. congruence. }
  unfold np_less in Hless. apply orb_false_elim in Hless as [_ Hless].
  rewrite Hnan in Hless. simpl in Hless. now apply negb_false_iff.
Qed.

Lemma nan_mean_ranks_first_witness :
  strict_weak_order (np_less (A := float)) /\
  rank_students ["Alice"; "Bob"; "Eve"]%string [70; nan; 90]%float
    = Ok (["Bob"; "Eve"; "Alice"]%string, [nan; 90; 70]%float, [1; 2; 3]) /\
  (exists a, In a [70; nan; 90]%float /\ fisnan a = true) /\
  exists top, nth_error [nan; 90; 70]%float 0 = Some top /\ fisnan top = true.
Proof.
  assert (H : rank_students ["Alice"; "Bob"; "Eve"]%string [70; nan; 90]%float
              = Ok (["Bob"; "Eve"; "Alice"]%string, [nan; 90; 70]%float, [1; 2; 3]))
    by reflexivity.
  assert (Hnan : exists a, In a [70; nan; 90]%float /\ fisnan a = true).
  { exists nan; split; [simpl; auto|reflexivity]. }
  split; [exact binary64_np_less_swo|]. split; [exact H|]. split; [exact Hnan|].
  exact (nan_mean_ranks_first float binary64 binary64_np_less_swo _ _ _ _ _ H Hnan).
Defined.

Lemma exact_ranked_means_sorted (labels : list string) (means : list R)
      (names : list string) (avgs : list R) (ranks : list nat) :
  rank_students labels means = Ok (names, avgs, ranks) ->
  forall p q a b,
    p < q -> nth_error avgs p = Some a -> nth_error avgs q = Some b -> (b <= a)%R.
Proof.
  intros H p q a b Hpq Hp Hq.
  pose proof (rank_students_inv _ _ _ _ _ H) as (_ & Ha & _).
  apply take_Ok_iff in Ha.
  destruct (Forall2_nth_error_r _ _ _ Ha p a Hp) as (i & Hi & Hia).
  destruct (Forall2_nth_error_r _ _ _ Ha q b Hq) as (j & Hj & Hjb).
  pose proof (StronglySorted_nth_error _ _
                (sorted_indices_sorted exact_np_less_swo means)
                p q i j Hpq Hi Hj) as (b' & a' & Hb' & Ha'' & Hless & _).
  simpl in Hless.
  assert (b' = b) by congruence. assert (a' = a) by congruence. subst.
  destruct (Rle_dec b a) as [Hle|Hnle]; [assumption|].
  assert (Hlt : np_less a b = true) by (apply exact_np_less; lra).
  congruence.
Qed.

Lemma ranked_mean_is_a_mean {A : Type} {F : Arith A} (labels : list string) (means : list A)
      (names : list string) (avgs : list A) (ranks : list nat) (k : nat) (a : A) :
  rank_students labels means = Ok (names, avgs, ranks) ->
  nth_error avgs k = Some a -> In a means.
Proof.
  intros H Hk.
  pose proof (rank_students_inv _ _ _ _ _ H) as (_ & Ha & _).
  apply take_Ok_iff in Ha.
  destruct (Forall2_nth_error_r _ _ _ Ha k a Hk) as (i & _ & Hia).
  eapply nth_error_In; eassumption.
Qed.

Lemma exact_first_rank_is_max (labels : list string) (means : list R)
      (names : list string) (avgs : list R) (ranks : list nat) (top : R) :
  rank_students labels means = Ok (names, avgs, ranks) ->
  nth_error avgs 0 = Some top -> is_max top means.
Proof.
  intros H Htop.
  pose proof (rank_students_inv _ _ _ _ _ H) as (_ & Ha & _).
  split; [now apply (ranked_mean_is_a_mean _ _ _ _ _ 0 top H)|].
  apply Forall_forall. intros a Hin.
  destruct (ranked_position means avgs a Ha Hin) as (q & Hq).
  destruct q as [|q].
  - assert (a = top) by congruence. subst. apply Rle_refl.
  - apply (exact_ranked_means_sorted _ _ _ _ _ H 0 (S q)); [lia|assumption|assumption].
Qed.

(** In exact arithmetic rank 1 holds the highest mean and the last rank the
    lowest one. *)
Theorem exact_first_rank_highest_last_rank_lowest :
  forall (labels : list string) (means : list R)
         (names : list string) (avgs : list R) (ranks : list nat),
    rank_students labels means = Ok (names, avgs, ranks) ->
    (forall top, nth_error avgs 0 = Some top -> is_max top means) /\
    (forall bottom, nth_error avgs (length avgs - 1) = Some bottom ->
                    is_min bottom means).
Proof.
  intros labels means names avgs ranks H.
  pose proof (rank_students_inv _ _ _ _ _ H) as (_ & Ha & _).
  split.
  - intros top Htop. now apply (exact_first_rank_is_max _ _ _ _ _ _ H).
  - intros bottom Hbot.
    split; [now apply (ranked_mean_is_a_mean _ _ _ _ _ (length avgs - 1) bottom H)|].
    apply Forall_forall. intros a Hin.
    destruct (ranked_position means avgs a Ha Hin) as (q & Hq).
    assert (Hq' : q < length avgs) by (apply nth_error_Some; congruence).
    destruct (Nat.eq_dec q (length avgs - 1)) as [->|Hne].
    + assert (a = bottom) by congruence. subst. apply Rle_refl.
    + apply (exact_ranked_means_sorted _ _ _ _ _ H q (length avgs - 1));
        [lia|assumption|assumption].
Qed.

Lemma rank_two_reals :
  rank_students ["Alice"; "Bob"]%string [1; 2]%R
  = Ok (["Bob"; "Alice"]%string, [2; 1]%R, [1; 2]).
Proof.
  unfold rank_students, sorted_indices, argsort, insertion_pass. simpl.
  unfold np_less; simpl. unfold Rltb.
  destruct (Rlt_dec 2 1) as [Hlt|_]; [lra|]. reflexivity.
Qed.

Lemma exact_first_rank_highest_last_rank_lowest_witness :
  rank_students ["Alice"; "Bob"]%string [1; 2]%R
    = Ok (["Bob"; "Alice"]%string, [2; 1]%R, [1; 2]) /\
  (forall top, nth_error [2; 1]%R 0 = Some top -> is_max top [1; 2]%R) /\
  (forall bottom, nth_error [2; 1]%R (length [2; 1]%R - 1) = Some bottom ->
                  is_min bottom [1; 2]%R).
Proof.
  split; [exact rank_two_reals|].
  exact (exact_first_rank_highest_last_rank_lowest _ _ _ _ _ rank_two_reals).
Defined.

(** The engine and the ranker compose: the means of a valid matrix with at
    least one column, ranked with one label per row, never make the ranker
    fail; the ranks are 1, ..., R and labels and means are only reordered. *)
Theorem statistics_then_ranking :
  forall (A : Type) (F : Arith A) (marks : ndarray2 A) (labels : list string),
    wf marks -> 1 <= ncols marks -> length labels = nrows marks ->
    exists means maxs mins std_devs names avgs,
      calculate_student_statistics marks = Ok (means, maxs, mins, std_devs) /\
      rank_students labels means = Ok (names, avgs, seq 1 (nrows marks)) /\
      Permutation names labels /\ Permutation avgs means.
Proof.
  intros A F marks labels Hwf Hc Hlen.
  destruct (calculate_student_statistics_Ok marks Hwf Hc) as (maxs & mins & Hcalc & _).
  assert (Hm : length (np_mean_axis1 marks) = length labels).
  { unfold np_mean_axis1. now rewrite length_map. }
  exists (np_mean_axis1 marks), maxs, mins, (np_std_axis1 0 marks),
    (select labels (sorted_indices (np_mean_axis1 marks))),
    (select (np_mean_axis1 marks) (sorted_indices (np_mean_axis1 marks))).
  split; [assumption|].
  split; [rewrite <- Hlen; apply rank_students_Ok; lia|].
  split.
  - etransitivity; [apply select_Permutation, sorted_indices_Permutation|].
    rewrite Hm, select_seq. reflexivity.
  - etransitivity; [apply select_Permutation, sorted_indices_Permutation|].
    rewrite select_seq. reflexivity.
Qed.

Lemma statistics_then_ranking_witness :
  let marks := np_array [[1; 3]; [2; 6]]%float in
  let labels := ["Alice"; "Bob"]%string in
  wf marks /\ 1 <= ncols marks /\ length labels = nrows marks /\
  exists means maxs mins std_devs names avgs,
    calculate_student_statistics marks = Ok (means, maxs, mins, std_devs) /\
    rank_students labels means = Ok (names, avgs, seq 1 (nrows marks)) /\
    Permutation names labels /\ Permutation avgs means.
Proof.
  assert (Hwf : wf (np_array [[1; 3]; [2; 6]]%float)) by (repeat constructor).
  assert (Hc : 1 <= ncols (np_array [[1; 3]; [2; 6]]%float)) by (simpl; lia).
  split; [exact Hwf|]. split; [exact Hc|]. split; [reflexivity|].
  exact (statistics_then_ranking float binary64 _ ["Alice"; "Bob"]%string
           Hwf Hc eq_refl).
Defined.

(** ** NaN marks in float64 *)

Lemma is_nan_iff (x : float) : PrimFloat.is_nan x = true <-> Prim2SF x = S754_nan.
Proof.
  unfold PrimFloat.is_nan. rewrite FloatAxioms.eqb_spec. unfold SFeqb.
  destruct (Prim2SF x) as [[]|[]| |[] m e]; simpl;
    rewrite ?Z.compare_refl, ?Pos.compare_cont_refl; simpl;
    split; intros H; try discriminate; reflexivity.
Qed.

Lemma nan_add (x y : float) :
  PrimFloat.is_nan x = true \/ PrimFloat.is_nan y = true ->
  PrimFloat.is_nan (PrimFloat.add x y) = true.
Proof.
  rewrite !is_nan_iff, FloatAxioms.add_spec. unfold SF64add, SFadd.
  intros [-> | ->]; [reflexivity|]. now destruct (Prim2SF x) as [[]|[]| |[] m e].
Qed.

Lemma nan_sub (x y : float) :
  PrimFloat.is_nan x = true \/ PrimFloat.is_nan y = true ->
  PrimFloat.is_nan (PrimFloat.sub x y) = true.
Proof.
  rewrite !is_nan_iff, FloatAxioms.sub_spec. unfold SF64sub, SFsub.
  intros [-> | ->]; [reflexivity|]. now destruct (Prim2SF x) as [[]|[]| |[] m e].
Qed.

Lemma nan_mul (x y : float) :
  PrimFloat.is_nan x = true \/ PrimFloat.is_nan y = true ->
  PrimFloat.is_nan (PrimFloat.mul x y) = true.
Proof.
  rewrite !is_nan_iff, FloatAxioms.mul_spec. unfold SF64mul, SFmul.
  intros [-> | ->]; [reflexivity|]. now destruct (Prim2SF x) as [[]|[]| |[] m e].
Qed.

Lemma nan_div (x y : float) :
  PrimFloat.is_nan x = true -> PrimFloat.is_nan (PrimFloat.div x y) = true.
Proof.
  rewrite !is_nan_iff, FloatAxioms.div_spec. unfold SF64div, SFdiv. now intros ->.
Qed.

Lemma nan_sqrt (x : float) :
  PrimFloat.is_nan x = true -> PrimFloat.is_nan (PrimFloat.sqrt x) = true.
Proof.
  rewrite !is_nan_iff, FloatAxioms.sqrt_spec. unfold SF64sqrt, SFsqrt. now intros ->.
Qed.

Lemma nan_not_less (x y : float) :
  PrimFloat.is_nan x = true -> PrimFloat.ltb x y = false.
Proof.
  rewrite is_nan_iff, FloatAxioms.ltb_spec. unfold SFltb, SFcompare. now intros ->.
Qed.

Lemma nan_sum_acc (l : list float) (acc : float) :
  PrimFloat.is_nan acc = true -> PrimFloat.is_nan (fold_left PrimFloat.add l acc) = true.
Proof.
  revert acc; induction l as [|x l IH]; intros acc H; simpl; [assumption|].
  apply IH, nan_add. now left.
Qed.

Lemma nan_sum (l : list float) (acc : float) :
  Exists (fun x => PrimFloat.is_nan x = true) l ->
  PrimFloat.is_nan (fold_left PrimFloat.add l acc) = true.
Proof.
  intros H; revert acc; induction H as [x l Hx|x l _ IH]; intros acc; simpl.
  - apply nan_sum_acc, nan_add. now right.
  - apply IH.
Qed.

Lemma nan_maximum (a b : float) :
  PrimFloat.is_nan a = true \/ PrimFloat.is_nan b = true ->
  PrimFloat.is_nan (maximum a b) = true.
Proof.
  unfold maximum; simpl. intros [H|H].
  - now rewrite H.
  - destruct (PrimFloat.is_nan a) eqn:Ha; [assumption|].
    now rewrite (nan_not_less b a H).
Qed.

Lemma nan_minimum (a b : float) :
  PrimFloat.is_nan a = true \/ PrimFloat.is_nan b = true ->
  PrimFloat.is_nan (minimum a b) = true.
Proof.
  unfold minimum; simpl. intros [H|H].
  - now rewrite H.
  - destruct (PrimFloat.is_nan a) eqn:Ha; [assumption|].
    destruct (PrimFloat.ltb a b) eqn:Hlt; [|assumption].
    rewrite FloatAxioms.ltb_spec in Hlt. apply is_nan_iff in H. rewrite H in Hlt.
    unfold SFltb, SFcompare in Hlt.
    destruct (Prim2SF a) as [[]|[]| |[] m e]; discriminate.
Qed.

Lemma nan_fold (op : float -> float -> float) (xs : list float) (x : float) :
  (forall a b, PrimFloat.is_nan a = true \/ PrimFloat.is_nan b = true ->
               PrimFloat.is_nan (op a b) = true) ->
  Exists (fun y => PrimFloat.is_nan y = true) (x :: xs) ->
  PrimFloat.is_nan (fold_left op xs x) = true.
Proof.
  intros Hop; revert x; induction xs as [|y xs IH]; intros x H; simpl.
  - inversion H as [? ? Hx|? ? Hx]; subst; [assumption|inversion Hx].
  - apply IH. inversion H as [? ? Hx|? ? Hx]; subst.
    + left. apply Hop; now left.
    + inversion Hx as [? ? Hy|? ? Hy]; subst.
      * left. apply Hop; now right.
      * now right.
Qed.

Lemma nan_std_row (n : nat) (row : list float) :
  Exists (fun x => PrimFloat.is_nan x = true) row ->
  PrimFloat.is_nan (np_std_row 0 n row) = true.
Proof.
  intros H. unfold np_std_row; simpl.
  apply nan_sqrt, nan_div. unfold np_sum; simpl.
  apply nan_sum. rewrite map_map.
  assert (Hmean : PrimFloat.is_nan
                    (PrimFloat.div (fold_left PrimFloat.add row (float_of_Z 0))
                                   (count n)) = true)
    by now apply nan_div, nan_sum.
  apply Exists_exists in H as (x & Hx & _).
  apply Exists_exists. exists (PrimFloat.mul
       (PrimFloat.sub x (PrimFloat.div (fold_left PrimFloat.add row (float_of_Z 0)) (count n)))
       (PrimFloat.sub x (PrimFloat.div (fold_left PrimFloat.add row (float_of_Z 0)) (count n)))).
  split.
  - apply in_map_iff. exists x. split; [reflexivity|assumption].
  - apply nan_mul. left. apply nan_sub. now right.
Qed.

(** A NaN mark spoils the whole row: in float64, if a row of a valid matrix
    contains a NaN, then the mean, the maximum, the minimum and the standard
    deviation returned for that row are all NaN. *)
Theorem nan_mark_makes_row_statistics_nan :
  forall marks : ndarray2 float,
    wf marks -> 1 <= ncols marks ->
    exists means maxs mins std_devs,
      calculate_student_statistics marks = Ok (means, maxs, mins, std_devs) /\
      forall i row,
        nth_error (rows marks) i = Some row ->
        Exists (fun x => PrimFloat.is_nan x = true) row ->
        exists mu mx mn sd,
          nth_error means i = Some mu /\ nth_error maxs i = Some mx /\
          nth_error mins i = Some mn /\ nth_error std_devs i = Some sd /\
          PrimFloat.is_nan mu = true /\ PrimFloat.is_nan mx = true /\
          PrimFloat.is_nan mn = true /\ PrimFloat.is_nan sd = true.
Proof.
  intros marks Hwf Hc.
  destruct (calculate_student_statistics_Ok marks Hwf Hc)
    as (maxs & mins & Hcalc & Hmaxs & Hmins).
  exists (np_mean_axis1 marks), maxs, mins, (np_std_axis1 0 marks).
  split; [assumption|].
  intros i row Hi Hnan.
  destruct (Forall2_nth_error _ _ _ Hmaxs i row Hi) as (mx & Hmx & Hrmx).
  destruct (Forall2_nth_error _ _ _ Hmins i row Hi) as (mn & Hmn & Hrmn).
  exists (fdiv (np_sum row) (count (ncols marks))), mx, mn,
    (np_std_row 0 (ncols marks) row).
  unfold np_mean_axis1, np_std_axis1. rewrite !nth_error_map, Hi. simpl.
  repeat (split; [reflexivity || assumption|]).
  split; [apply nan_div; unfold np_sum; simpl; now apply nan_sum|].
  destruct row as [|x xs]; [inversion Hnan|].
  simpl in Hrmx, Hrmn. injection Hrmx as <-. injection Hrmn as <-.
  split; [apply nan_fold; [apply nan_maximum|assumption]|].
  split; [apply nan_fold; [apply nan_minimum|assumption]|].
  now apply nan_std_row.
Qed.

Lemma nan_mark_makes_row_statistics_nan_witness :
  let marks := np_array [[1; nan; 3]; [2; 2; 7]]%float in
  wf marks /\ 1 <= ncols marks /\
  exists means maxs mins std_devs,
    calculate_student_statistics marks = Ok (means, maxs, mins, std_devs) /\
    forall i row,
      nth_error (rows marks) i = Some row ->
      Exists (fun x => PrimFloat.is_nan x = true) row ->
      exists mu mx mn sd,
        nth_error means i = Some mu /\ nth_error maxs i = Some mx /\
        nth_error mins i = Some mn /\ nth_error std_devs i = Some sd /\
        PrimFloat.is_nan mu = true /\ PrimFloat.is_nan mx = true /\
        PrimFloat.is_nan mn = true /\ PrimFloat.is_nan sd = true.
Proof.
  assert (Hwf : wf (np_array [[1; nan; 3]; [2; 2; 7]]%float)) by (repeat constructor).
  assert (Hc : 1 <= ncols (np_array [[1; nan; 3]; [2; 2; 7]]%float)) by (simpl; lia).
  split; [exact Hwf|]. split; [exact Hc|].
  exact (nan_mark_makes_row_statistics_nan _ Hwf Hc).
Defined.


(** * The display *)

(** ** Indexing inside loops *)

Lemma mapM_ext {T U : Type} (f g : T -> result U) (l : list T) :
  (forall x, In x l -> f x = g x) -> mapM f l = mapM g l.
Proof.
  induction l as [|x xs IH]; intros H; simpl; [reflexivity|].
  rewrite (H x (or_introl eq_refl)), IH; [reflexivity|].
  intros y Hy; apply H; now right.
Qed.

Lemma getitem_combine {T U : Type} (a : list T) (b : list U) (i : nat) :
  getitem (combine a b) i = (x <- getitem a i ;; y <- getitem b i ;; Ok (x, y)).
Proof.
  unfold getitem. revert a b; induction i as [|i IH]; intros [|x a] [|y b];
    simpl; try reflexivity;
    try (destruct (nth_error a i); reflexivity).
  apply IH.
Qed.

(** A loop over [enumerate(names)] that reads [a[i]] pairs every name with
    the entry of [a] at its position, provided [a] is long enough. *)
Lemma mapM_enumerate_from {T U V : Type} (k : T -> U -> V)
      (names : list T) (pre a : list U) :
  length names <= length a ->
  mapM (fun '(i, name) => x <- getitem (pre ++ a) i ;; Ok (k name x))
       (combine (seq (length pre) (length names)) names)
  = Ok (map (fun p => k (fst p) (snd p)) (combine names a)).
Proof.
  revert pre a; induction names as [|name names IH]; intros pre a Hlen;
    [reflexivity|].
  destruct a as [|x a]; [simpl in Hlen; lia|].
  simpl. unfold getitem at 1.
  rewrite nth_error_app2, Nat.sub_diag by lia. simpl.
  specialize (IH (pre ++ [x]) a).
  rewrite <- app_assoc, length_app, Nat.add_1_r in IH. simpl in IH.
  rewrite IH by (simpl in Hlen; lia). reflexivity.
Qed.

Lemma mapM_enumerate {T U V : Type} (k : T -> U -> V) (names : list T) (a : list U) :
  length names <= length a ->
  mapM (fun '(i, name) => x <- getitem a i ;; Ok (k name x)) (enumerate names)
  = Ok (map (fun p => k (fst p) (snd p)) (combine names a)).
Proof. intros H. exact (mapM_enumerate_from k names [] a H). Qed.

Lemma nth_error_enumerate_from {T : Type} (names : list T) (s i : nat) (name : T) :
  nth_error names i = Some name ->
  nth_error (combine (seq s (length names)) names) i = Some (s + i, name).
Proof.
  revert s i; induction names as [|x names IH]; intros s [|i] H; simpl in *;
    try discriminate.
  - injection H as <-. now rewrite Nat.add_0_r.
  - rewrite (IH (S s) i H). f_equal. f_equal. lia.
Qed.

Lemma mapM_enumerate_short {T U V : Type} (k : T -> U -> V) (names : list T) (a : list U) :
  length a < length names ->
  mapM (fun '(i, name) => x <- getitem a i ;; Ok (k name x)) (enumerate names)
  = Raise IndexError.
Proof.
  intros Hlen.
  destruct (mapM _ (enumerate names)) as [ys|e] eqn:H.
  - exfalso. apply mapM_Ok_Forall2 in H.
    destruct (nth_error names (length a)) as [name|] eqn:Hn.
    2:{ apply nth_error_None in Hn. lia. }
    assert (Hin : In (length a, name) (enumerate names)).
    { unfold enumerate. apply (nth_error_In _ (length a)).
      now rewrite (nth_error_enumerate_from names 0 (length a) name Hn). }
    destruct (Forall2_In_l _ _ _ _ H Hin) as (y & _ & Hy). simpl in Hy.
    unfold getitem in Hy.
    destruct (nth_error a (length a)) eqn:E; [|discriminate].
    assert (length a < length a); [|lia].
    apply nth_error_Some. congruence.
  - apply mapM_Raise in H as ([i name] & _ & Hf). simpl in Hf.
    unfold getitem in Hf. destruct (nth_error a i); [discriminate|].
    simpl in Hf. congruence.
Qed.

Lemma mapM_seq_from {U V : Type} (k : U -> V) (pre a : list U) :
  mapM (fun i => x <- getitem (pre ++ a) i ;; Ok (k x)) (seq (length pre) (length a))
  = Ok (map k a).
Proof.
  revert pre; induction a as [|x a IH]; intros pre; [reflexivity|].
  simpl. unfold getitem at 1.
  rewrite nth_error_app2, Nat.sub_diag by lia. simpl.
  specialize (IH (pre ++ [x])).
  rewrite <- app_assoc, length_app, Nat.add_1_r in IH. simpl in IH.
  now rewrite IH.
Qed.

Lemma mapM_seq_getitem {U V : Type} (k : U -> V) (a : list U) :
  mapM (fun i => x <- getitem a i ;; Ok (k x)) (seq 0 (length a)) = Ok (map k a).
Proof. exact (mapM_seq_from k [] a). Qed.

Lemma map_fst_combine_le {T U : Type} (l : list T) (l' : list U) :
  length l <= length l' -> map fst (combine l l') = l.
Proof.
  revert l'; induction l as [|x l IH]; intros [|y l'] H; simpl in *;
    try reflexivity; try lia.
  f_equal. apply IH. lia.
Qed.

Lemma map_snd_combine {T U : Type} (l : list T) (l' : list U) :
  length l = length l' -> map snd (combine l l') = l'.
Proof.
  revert l'; induction l as [|x l IH]; intros [|y l'] H; simpl in *;
    try discriminate; [reflexivity|].
  f_equal. apply IH. lia.
Qed.

Section DisplayProps.
Context {A : Type} {F : Arith A}.

Lemma add_rows_length (acc r : list A) :
  length r = length acc -> length (add_rows acc r) = length acc.
Proof.
  intros H. unfold add_rows. rewrite length_map, length_combine. lia.
Qed.

Lemma fold_add_rows_length (l : list (list A)) (acc : list A) :
  Forall (fun r => length r = length acc) l ->
  length (fold_left add_rows l acc) = length acc.
Proof.
  revert acc; induction l as [|r l IH]; intros acc H; simpl; [reflexivity|].
  inversion H as [|? ? Hr Hl]; subst.
  rewrite IH; [now apply add_rows_length|].
  rewrite add_rows_length by assumption. assumption.
Qed.

(** A valid matrix has one subject average per column. *)
Lemma np_mean_axis0_length (m : ndarray2 A) :
  wf m -> length (np_mean_axis0 m) = ncols m.
Proof.
  intros Hwf. unfold np_mean_axis0, np_sum_axis0. rewrite length_map.
  rewrite fold_add_rows_length; rewrite repeat_length; [reflexivity|exact Hwf].
Qed.

Lemma statistics_loop (names : list string) (averages maximums minimums std_devs : list A) :
  mapM (fun '(i, name) =>
          a <- getitem averages i ;;
          mx <- getitem maximums i ;;
          mn <- getitem minimums i ;;
          sd <- getitem std_devs i ;;
          Ok (name, (a, mx, mn, sd)))
       (enumerate names)
  = mapM (fun '(i, name) =>
            x <- getitem (combine averages (combine maximums (combine minimums std_devs))) i ;;
            Ok (statistics_row name x))
         (enumerate names).
Proof.
  apply mapM_ext. intros [i name] _. rewrite !getitem_combine.
  destruct (getitem averages i), (getitem maximums i),
    (getitem minimums i), (getitem std_devs i); reflexivity.
Qed.

Lemma ranking_loop (ranks : list nat) (names : list string) (averages : list A) (l : list nat) :
  mapM (fun i =>
          rank <- getitem ranks i ;;
          name <- getitem names i ;;
          a <- getitem averages i ;;
          Ok (rank, name, a, medal_of rank)) l
  = mapM (fun i =>
            x <- getitem (combine ranks (combine names averages)) i ;;
            Ok (ranking_row x)) l.
Proof.
  apply mapM_ext. intros i _. rewrite !getitem_combine.
  destruct (getitem ranks i), (getitem names i), (getitem averages i); reflexivity.
Qed.

End DisplayProps.

Section DisplayResults.
Context {A : Type} {F : Arith A}.

Lemma map_pair_eta {T U : Type} (l : list (T * U)) :
  map (fun p => (fst p, snd p)) l = l.
Proof. induction l as [|[x y] l IH]; simpl; [reflexivity|now rewrite IH]. Qed.

(** What a successful call of [display_results] went through. *)
Lemma display_results_inv (names : list string) (marks : ndarray2 A)
      (averages maximums minimums std_devs : list A) (subjects : list string)
      (d : display A) :
  display_results names marks averages maximums minimums std_devs subjects = Ok d ->
  exists ranked_names ranked_averages ranks highest lowest,
    rank_students names averages = Ok (ranked_names, ranked_averages, ranks) /\
    mapM (fun i => x <- getitem (combine ranks (combine ranked_names ranked_averages)) i ;;
                   Ok (ranking_row x))
         (seq 0 (length ranks)) = Ok (shown_ranking d) /\
    np_max1 averages = Ok highest /\
    np_min1 averages = Ok lowest /\
    mapM (fun '(i, name) => row <- getitem (rows marks) i ;; Ok (name, row))
         (enumerate names) = Ok (shown_marks d) /\
    mapM (fun '(i, subject) => a <- getitem (np_mean_axis0 marks) i ;; Ok (subject, a))
         (enumerate subjects) = Ok (shown_subject_averages d) /\
    shown_subjects d = subjects /\
    shown_total d = length names /\
    shown_class_average d = np_mean1 averages /\
    shown_highest d = highest /\
    shown_lowest d = lowest /\
    shown_class_std d = np_std1 averages.
Proof.
  unfold display_results. intros H.
  destruct (mapM (fun '(i, name) => row <- getitem (rows marks) i ;; Ok (name, row))
                 (enumerate names)) as [sm|e] eqn:Hsm; [|discriminate H].
  cbn [bind] in H.
  match type of H with bind ?c _ = _ => destruct c as [ss|e] eqn:Hss end;
    [|discriminate H].
  cbn [bind] in H.
  destruct (rank_students names averages) as [[[rn ra] ranks]|e] eqn:Hrank;
    [|discriminate H].
  cbn [bind] in H. rewrite ranking_loop in H.
  match type of H with bind ?c _ = _ => destruct c as [sr|e] eqn:Hsr end;
    [|discriminate H].
  cbn [bind] in H.
  destruct (np_max1 averages) as [hi|e] eqn:Hhi; [|discriminate H].
  cbn [bind] in H.
  destruct (np_min1 averages) as [lo|e] eqn:Hlo; [|discriminate H].
  cbn [bind] in H.
  match type of H with bind ?c _ = _ => destruct c as [ssa|e] eqn:Hssa end;
    [|discriminate H].
  cbn [bind] in H. injection H as <-. simpl.
  exists rn, ra, ranks, hi, lo. repeat split; assumption || reflexivity.
Qed.

(** On consistent data for at least one student [display_results] goes
    through, and these are its tables. *)
Lemma display_results_Ok (names : list string) (marks : ndarray2 A)
      (averages maximums minimums std_devs : list A) (subjects : list string) :
  wf marks ->
  length names = nrows marks ->
  length averages = length names ->
  length maximums = length names ->
  length minimums = length names ->
  length std_devs = length names ->
  1 <= length names ->
  length subjects <= ncols marks ->
  exists ranked_names ranked_averages highest lowest,
    rank_students names averages
      = Ok (ranked_names, ranked_averages, seq 1 (length names)) /\
    length ranked_names = length names /\
    length ranked_averages = length names /\
    Permutation ranked_names names /\
    np_max1 averages = Ok highest /\
    np_min1 averages = Ok lowest /\
    display_results names marks averages maximums minimums std_devs subjects
    = Ok {| shown_subjects := subjects;
            shown_marks := combine names (rows marks);
            shown_statistics :=
              map (fun p => statistics_row (fst p) (snd p))
                  (combine names
                     (combine averages (combine maximums (combine minimums std_devs))));
            shown_ranking :=
              map ranking_row
                  (combine (seq 1 (length names))
                           (combine ranked_names ranked_averages));
            shown_total := length names;
            shown_class_average := np_mean1 averages;
            shown_highest := highest;
            shown_lowest := lowest;
            shown_class_std := np_std1 averages;
            shown_subject_averages := combine subjects (np_mean_axis0 marks) |}.
Proof.
  intros Hwf Hrows Ha Hmx Hmn Hsd Hn Hsub.
  pose proof (rank_students_Ok names averages) as Hrank.
  rewrite Ha in Hrank. specialize (Hrank (le_n _)).
  set (rn := select names (sorted_indices averages)) in *.
  set (ra := select averages (sorted_indices averages)) in *.
  assert (Hlen : length rn = length names /\ length ra = length names).
  { pose proof (rank_students_inv _ _ _ _ _ Hrank) as (Hn' & Ha' & _).
    apply take_Ok_iff in Hn', Ha'. apply Forall2_length in Hn', Ha'.
    rewrite sorted_indices_length in Hn', Ha'. split; congruence. }
  destruct Hlen as [Hrn Hra].
  assert (Hperm : Permutation rn names).
  { unfold rn. etransitivity; [apply select_Permutation, sorted_indices_Permutation|].
    rewrite Ha, select_seq. reflexivity. }
  destruct averages as [|a0 averages']; [simpl in Ha; lia|].
  exists rn, ra, (fold_left maximum averages' a0), (fold_left minimum averages' a0).
  repeat (split; [assumption || reflexivity|]).
  unfold display_results.
  pose proof (mapM_enumerate (fun (name : string) (row : list A) => (name, row))
                names (rows marks)) as E1.
  cbv beta in E1. rewrite E1 by (unfold nrows in Hrows; lia). clear E1.
  rewrite map_pair_eta. simpl bind at 1.
  rewrite statistics_loop.
  pose proof (mapM_enumerate (@statistics_row A) names
                (combine (a0 :: averages')
                         (combine maximums (combine minimums std_devs)))) as E2.
  cbv beta in E2. rewrite E2 by (rewrite !length_combine; lia). clear E2.
  simpl bind at 1. rewrite Hrank. simpl bind at 1. cbv iota beta.
  rewrite ranking_loop.
  pose proof (mapM_seq_getitem (@ranking_row A)
                (combine (seq 1 (length names)) (combine rn ra))) as E3.
  rewrite !length_combine, length_seq, Hrn, Hra, !Nat.min_id in E3.
  rewrite length_seq, E3. clear E3.
  simpl bind at 1. unfold np_max1, np_min1. simpl reduce1. simpl bind at 1.
  simpl bind at 1.
  pose proof (mapM_enumerate (fun (subject : string) (a : A) => (subject, a))
                subjects (np_mean_axis0 marks)) as E4.
  cbv beta in E4. rewrite E4 by (rewrite np_mean_axis0_length; assumption). clear E4.
  rewrite map_pair_eta. reflexivity.
Qed.

End DisplayResults.

Lemma nth_error_combine_Some {T U : Type} (l : list T) (l' : list U) (k : nat) (x : T) (y : U) :
  nth_error l k = Some x -> nth_error l' k = Some y ->
  nth_error (combine l l') k = Some (x, y).
Proof.
  revert l l'; induction k as [|k IH]; intros [|a l] [|b l'] Hx Hy; simpl in *;
    try discriminate.
  - congruence.
  - now apply IH.
Qed.

(** On consistent data for at least one student ([R] names, an [R] x [C]
    matrix, [R] entries in each statistics array, at most [C] subjects)
    [display_results] does not fail. The marks table pairs every student, in
    input order, with the row of marks; row [k] of the statistics table shows
    student [k] with the four statistics at index [k]; the ranking shows the
    ranks 1, ..., R, each with the medal of its rank, beside a permutation of
    the students; the subject table lists the subjects in input order. *)
Theorem display_results_shows_every_student :
  forall (A : Type) (F : Arith A) (names : list string) (marks : ndarray2 A)
         (averages maximums minimums std_devs : list A) (subjects : list string),
    wf marks ->
    length names = nrows marks ->
    length averages = length names ->
    length maximums = length names ->
    length minimums = length names ->
    length std_devs = length names ->
    1 <= length names ->
    length subjects <= ncols marks ->
    exists d,
      display_results names marks averages maximums minimums std_devs subjects = Ok d /\
      shown_marks d = combine names (rows marks) /\
      (forall k name a mx mn sd,
          nth_error names k = Some name ->
          nth_error averages k = Some a -> nth_error maximums k = Some mx ->
          nth_error minimums k = Some mn -> nth_error std_devs k = Some sd ->
          nth_error (shown_statistics d) k = Some (name, (a, mx, mn, sd))) /\
      map (fun '(rank, _, _, md) => (rank, md)) (shown_ranking d)
        = map (fun rank => (rank, medal_of rank)) (seq 1 (length names)) /\
      Permutation (map (fun '(_, name, _, _) => name) (shown_ranking d)) names /\
      shown_total d = length names /\
      map fst (shown_subject_averages d) = subjects.
Proof.
  intros A F names marks averages maximums minimums std_devs subjects
         Hwf Hrows Ha Hmx Hmn Hsd Hn Hsub.
  destruct (display_results_Ok names marks averages maximums minimums std_devs
              subjects Hwf Hrows Ha Hmx Hmn Hsd Hn Hsub)
    as (rn & ra & hi & lo & Hrank & Hrn & Hra & Hperm & Hhi & Hlo & Hd).
  eexists. split; [exact Hd|]. simpl.
  split; [reflexivity|].
  split.
  { intros k name a mx mn sd Hk Hka Hkmx Hkmn Hksd.
    rewrite nth_error_map.
    rewrite (nth_error_combine_Some _ _ k name (a, (mx, (mn, sd))) Hk).
    - reflexivity.
    - repeat (apply nth_error_combine_Some; [assumption|]). assumption. }
  split.
  { rewrite map_map.
    rewrite <- (map_fst_combine_le (seq 1 (length names)) (combine rn ra)) at 2
      by (rewrite length_combine, length_seq; lia).
    rewrite map_map. apply map_ext. intros [rank [name a]]. reflexivity. }
  split.
  { rewrite map_map.
    replace (map _ (combine (seq 1 (length names)) (combine rn ra))) with rn;
      [assumption|].
    rewrite <- (map_fst_combine_le rn ra) at 1 by lia.
    rewrite <- (map_snd_combine (seq 1 (length names)) (combine rn ra)) at 1
      by (rewrite length_combine, length_seq; lia).
    rewrite map_map. apply map_ext. intros [rank [name a]]. reflexivity. }
  split; [reflexivity|].
  apply map_fst_combine_le. rewrite np_mean_axis0_length; assumption.
Qed.

Lemma display_results_shows_every_student_witness :
  let names := ["Ann"; "Bob"]%string in
  let marks := np_array [[1; 3]; [2; 6]]%float in
  let subjects := ["Math"; "Art"]%string in
  wf marks /\
  length names = nrows marks /\
  length [2; 4]%float = length names /\
  length [3; 6]%float = length names /\
  length [1; 2]%float = length names /\
  length [1; 2]%float = length names /\
  1 <= length names /\
  length subjects <= ncols marks /\
  exists d,
    display_results names marks [2; 4]%float [3; 6]%float [1; 2]%float [1; 2]%float
                    subjects = Ok d /\
    shown_marks d = combine names (rows marks) /\
    (forall k name a mx mn sd,
        nth_error names k = Some name ->
        nth_error [2; 4]%float k = Some a -> nth_error [3; 6]%float k = Some mx ->
        nth_error [1; 2]%float k = Some mn -> nth_error [1; 2]%float k = Some sd ->
        nth_error (shown_statistics d) k = Some (name, (a, mx, mn, sd))) /\
    map (fun '(rank, _, _, md) => (rank, md)) (shown_ranking d)
      = map (fun rank => (rank, medal_of rank)) (seq 1 (length names)) /\
    Permutation (map (fun '(_, name, _, _) => name) (shown_ranking d)) names /\
    shown_total d = length names /\
    map fst (shown_subject_averages d) = subjects.
Proof.
  assert (Hwf : wf (np_array [[1; 3]; [2; 6]]%float)) by (repeat constructor).
  assert (Hn : 1 <= length ["Ann"; "Bob"]%string) by (simpl; lia).
  assert (Hs : length ["Math"; "Art"]%string <= ncols (np_array [[1; 3]; [2; 6]]%float))
    by (simpl; lia).
  repeat (split; [first [exact Hwf | exact Hn | exact Hs | reflexivity]|]).
  exact (display_results_shows_every_student float binary64
           ["Ann"; "Bob"]%string (np_array [[1; 3]; [2; 6]]%float)
           [2; 4]%float [3; 6]%float [1; 2]%float [1; 2]%float
           ["Math"; "Art"]%string
           Hwf eq_refl eq_refl eq_refl eq_refl eq_refl Hn Hs).
Defined.

(** Without averages [display_results] never completes: with no students
    at all the tables are empty and [np.max] raises [ValueError]; with
    students, the statistics table raises [IndexError] (when the marks table
    has not raised it before). *)
Theorem display_results_fails_without_averages :
  forall (A : Type) (F : Arith A) (names : list string) (marks : ndarray2 A)
         (maximums minimums std_devs : list A) (subjects : list string),
    exists e,
      display_results names marks [] maximums minimums std_devs subjects = Raise e /\
      (names = [] -> e = ValueError) /\
      (names <> [] -> e = IndexError).
Proof.
  intros A F names marks maximums minimums std_devs subjects.
  destruct names as [|name names].
  - exists ValueError. split; [reflexivity|]. split; [reflexivity|congruence].
  - exists IndexError. split; [|split; [discriminate|reflexivity]].
    unfold display_results.
    destruct (le_lt_dec (length (name :: names)) (length (rows marks))) as [Hle|Hlt].
    + pose proof (mapM_enumerate (fun (n : string) (row : list A) => (n, row))
                    (name :: names) (rows marks) Hle) as E.
      cbv beta in E. rewrite E. reflexivity.
    + pose proof (mapM_enumerate_short (fun (n : string) (row : list A) => (n, row))
                    (name :: names) (rows marks) Hlt) as E.
      cbv beta in E. rewrite E. reflexivity.
Qed.

(** ** The class statistics in exact arithmetic *)

Open Scope R_scope.

Lemma Rsum_map_div (l : list R) (c : R) :
  Rsum (map (fun x => x / c) l) = Rsum l / c.
Proof.
  induction l as [|x l IH]; simpl; [unfold Rdiv; now rewrite Rmult_0_l|].
  rewrite IH. unfold Rdiv. ring.
Qed.

Lemma Rsum_add_rows (acc r : list R) :
  length r = length acc -> Rsum (add_rows acc r) = Rsum acc + Rsum r.
Proof.
  revert r; induction acc as [|a acc IH]; intros [|x r] H; simpl in *;
    try discriminate; [lra|].
  unfold add_rows in IH. rewrite IH by lia. lra.
Qed.

Lemma Rsum_fold_add_rows (l : list (list R)) (acc : list R) :
  Forall (fun r => length r = length acc) l ->
  Rsum (fold_left add_rows l acc) = Rsum acc + Rsum (map Rsum l).
Proof.
  revert acc; induction l as [|r l IH]; intros acc H; simpl; [lra|].
  inversion H as [|? ? Hr Hl]; subst.
  rewrite IH by (rewrite add_rows_length; assumption).
  rewrite Rsum_add_rows by assumption. lra.
Qed.

Lemma Rsum_repeat_zero (n : nat) : Rsum (repeat 0 n) = 0.
Proof. induction n as [|n IH]; simpl; [reflexivity|]. rewrite IH. lra. Qed.

(** The column sums of a valid matrix add up to what its row sums add up to. *)
Lemma Rsum_np_sum_axis0 (m : ndarray2 R) :
  wf m -> Rsum (np_sum_axis0 m) = Rsum (map Rsum (rows m)).
Proof.
  intros Hwf. unfold np_sum_axis0.
  rewrite Rsum_fold_add_rows by (rewrite repeat_length; exact Hwf).
  simpl. rewrite Rsum_repeat_zero. lra.
Qed.

Lemma np_mean1_exact (l : list R) : np_mean1 l = Rsum l / INR (length l).
Proof. unfold np_mean1. now rewrite np_sum_exact, count_exact. Qed.

Lemma np_mean_axis1_exact (m : ndarray2 R) :
  np_mean_axis1 m = map (fun s => s / INR (ncols m)) (map Rsum (rows m)).
Proof.
  unfold np_mean_axis1. rewrite map_map. apply map_ext. intros r.
  now rewrite np_sum_exact, count_exact.
Qed.

Lemma np_mean_axis0_exact (m : ndarray2 R) :
  np_mean_axis0 m = map (fun s => s / INR (nrows m)) (np_sum_axis0 m).
Proof.
  unfold np_mean_axis0. apply map_ext. intros s. now rewrite count_exact.
Qed.

Close Scope R_scope.

(** The two summary tables agree in exact arithmetic: when the statistics of
    a valid matrix are displayed with one subject per column, the class
    average shown is the mean of the subject averages shown. *)
Theorem exact_class_average_is_mean_of_subject_averages :
  forall (names : list string) (marks : ndarray2 R)
         (averages maximums minimums std_devs : list R)
         (subjects : list string) (d : display R),
    wf marks -> 1 <= ncols marks ->
    length subjects = ncols marks ->
    calculate_student_statistics marks = Ok (averages, maximums, minimums, std_devs) ->
    display_results names marks averages maximums minimums std_devs subjects = Ok d ->
    shown_class_average d
    = (Rsum (map snd (shown_subject_averages d)) / INR (length subjects))%R.
Proof.
  intros names marks averages maximums minimums std_devs subjects d
         Hwf Hc Hsub Hcalc Hd.
  destruct (calculate_student_statistics_Ok marks Hwf Hc) as (mx & mn & Hcalc' & _).
  rewrite Hcalc in Hcalc'. injection Hcalc' as -> _ _ _.
  destruct (display_results_inv _ _ _ _ _ _ _ _ Hd)
    as (rn & ra & ranks & hi & lo & _ & _ & Hhi & _ & _ & Hssa & _ & _ & Hca & _).
  assert (Hrows : 1 <= nrows marks).
  { unfold np_max1, np_mean_axis1, nrows in *.
    destruct (rows marks); [discriminate Hhi|simpl; lia]. }
  pose proof (mapM_enumerate (fun (s : string) (a : R) => (s, a))
                subjects (np_mean_axis0 marks)) as E.
  cbv beta in E. rewrite E in Hssa by (rewrite np_mean_axis0_length; [lia|assumption]).
  injection Hssa as Hssa. rewrite map_pair_eta in Hssa.
  rewrite <- Hssa, Hca.
  rewrite map_snd_combine by (rewrite np_mean_axis0_length; assumption).
  rewrite np_mean1_exact, np_mean_axis1_exact, np_mean_axis0_exact.
  rewrite !Rsum_map_div, Rsum_np_sum_axis0 by assumption.
  rewrite !length_map, Hsub. fold (nrows marks).
  assert (INR (ncols marks) <> 0%R) by (apply not_0_INR; lia).
  assert (INR (nrows marks) <> 0%R) by (apply not_0_INR; lia).
  field. split; assumption.
Qed.

Lemma exact_class_average_is_mean_of_subject_averages_witness :
  let names := ["Ann"; "Bob"]%string in
  let marks := np_array [[1; 3]; [2; 6]]%R in
  let subjects := ["Math"; "Art"]%string in
  wf marks /\ 1 <= ncols marks /\ length subjects = ncols marks /\
  exists averages maximums minimums std_devs d,
    calculate_student_statistics marks = Ok (averages, maximums, minimums, std_devs) /\
    display_results names marks averages maximums minimums std_devs subjects = Ok d /\
    shown_class_average d
    = (Rsum (map snd (shown_subject_averages d)) / INR (length subjects))%R.
Proof.
  assert (Hwf : wf (np_array [[1; 3]; [2; 6]]%R)) by (repeat constructor).
  assert (Hc : 1 <= ncols (np_array [[1; 3]; [2; 6]]%R)) by (simpl; lia).
  split; [exact Hwf|]. split; [exact Hc|]. split; [reflexivity|].
  destruct (calculate_student_statistics_Ok _ Hwf Hc) as (maxs & mins & Hcalc & Hmx & Hmn).
  apply Forall2_length in Hmx, Hmn.
  assert (Hn : 1 <= length ["Ann"; "Bob"]%string) by (simpl; lia).
  assert (Hs : length ["Math"; "Art"]%string <= ncols (np_array [[1; 3]; [2; 6]]%R))
    by (simpl; lia).
  destruct (display_results_Ok ["Ann"; "Bob"]%string (np_array [[1; 3]; [2; 6]]%R)
              (np_mean_axis1 (np_array [[1; 3]; [2; 6]]%R)) maxs mins
              (np_std_axis1 0 (np_array [[1; 3]; [2; 6]]%R)) ["Math"; "Art"]%string
              Hwf eq_refl eq_refl (eq_sym Hmx) (eq_sym Hmn) eq_refl Hn Hs)
    as (rn & ra & hi & lo & _ & _ & _ & _ & _ & _ & Hd).
  eexists _, maxs, mins, _, _. split; [exact Hcalc|]. split; [exact Hd|].
  exact (exact_class_average_is_mean_of_subject_averages
           ["Ann"; "Bob"]%string _ _ _ _ _ ["Math"; "Art"]%string _
           Hwf Hc eq_refl Hcalc Hd).
Defined.

(** In exact arithmetic the class statistics are ordered, lowest average <=
    class average <= highest average, and the first line of the ranking
    carries rank 1, the gold medal and the highest average. *)
Theorem exact_class_statistics_are_ordered :
  forall (names : list string) (marks : ndarray2 R)
         (averages maximums minimums std_devs : list R)
         (subjects : list string) (d : display R),
    display_results names marks averages maximums minimums std_devs subjects = Ok d ->
    (shown_lowest d <= shown_class_average d <= shown_highest d)%R /\
    is_min (shown_lowest d) averages /\
    is_max (shown_highest d) averages /\
    exists name,
      nth_error (shown_ranking d) 0 = Some (1, name, shown_highest d, Gold).
Proof.
  intros names marks averages maximums minimums std_devs subjects d Hd.
  destruct (display_results_inv _ _ _ _ _ _ _ _ Hd)
    as (rn & ra & ranks & hi & lo & Hrank & Hsr & Hhi & Hlo & _ & _ & _ & _
        & Hca & Hh & Hl & _).
  rewrite Hca, Hh, Hl.
  pose proof (reduce1_maximum_is_max _ _ Hhi) as Hmax.
  pose proof (reduce1_minimum_is_min _ _ Hlo) as Hmin.
  assert (Hne : 1 <= length averages).
  { destruct averages; [discriminate Hhi|simpl; lia]. }
  split; [|split; [assumption|split; [assumption|]]].
  { rewrite np_mean1_exact. apply mean_between; [assumption|apply Hmin|apply Hmax]. }
  pose proof (rank_students_inv _ _ _ _ _ Hrank) as (Hrn & Hra & ->).
  apply take_Ok_iff in Hrn, Hra. apply Forall2_length in Hrn, Hra.
  rewrite sorted_indices_length in Hrn, Hra.
  assert (Hnames : 1 <= length names).
  { destruct (le_lt_dec (length averages) (length names)) as [Hle|Hlt]; [lia|].
    rewrite (rank_students_Raise names averages Hlt) in Hrank. discriminate. }
  destruct names as [|n0 names']; [simpl in Hnames; lia|].
  destruct rn as [|name rn']; [simpl in Hrn; lia|].
  destruct ra as [|top ra']; [simpl in Hra; lia|].
  simpl in Hsr. unfold getitem in Hsr at 1. simpl in Hsr.
  match type of Hsr with bind ?c _ = _ => destruct c as [rest|e] end;
    [|discriminate Hsr].
  simpl in Hsr. injection Hsr as Hsr. rewrite <- Hsr. simpl.
  exists name. repeat f_equal.
  destruct (exact_first_rank_is_max _ _ _ _ _ top Hrank eq_refl) as [Hin Hall].
  destruct Hmax as [Hin' Hall']. rewrite Forall_forall in Hall, Hall'.
  apply Rle_antisym; [apply Hall'; assumption|apply Hall; assumption].
Qed.

Lemma exact_class_statistics_are_ordered_witness :
  let names := ["Ann"; "Bob"]%string in
  let marks := np_array [[1; 3]; [2; 6]]%R in
  let subjects := ["Math"; "Art"]%string in
  exists averages maximums minimums std_devs d,
    display_results names marks averages maximums minimums std_devs subjects = Ok d /\
    (shown_lowest d <= shown_class_average d <= shown_highest d)%R /\
    is_min (shown_lowest d) averages /\
    is_max (shown_highest d) averages /\
    exists name,
      nth_error (shown_ranking d) 0 = Some (1, name, shown_highest d, Gold).
Proof.
  assert (Hwf : wf (np_array [[1; 3]; [2; 6]]%R)) by (repeat constructor).
  assert (Hn : 1 <= length ["Ann"; "Bob"]%string) by (simpl; lia).
  assert (Hs : length ["Math"; "Art"]%string <= ncols (np_array [[1; 3]; [2; 6]]%R))
    by (simpl; lia).
  destruct (display_results_Ok ["Ann"; "Bob"]%string (np_array [[1; 3]; [2; 6]]%R)
              [2; 4]%R [3; 6]%R [1; 2]%R [1; 2]%R ["Math"; "Art"]%string
              Hwf eq_refl eq_refl eq_refl eq_refl eq_refl Hn Hs)
    as (rn & ra & hi & lo & _ & _ & _ & _ & _ & _ & Hd).
  eexists [2; 4]%R, [3; 6]%R, [1; 2]%R, [1; 2]%R, _. split; [exact Hd|].
  exact (exact_class_statistics_are_ordered
           ["Ann"; "Bob"]%string _ _ _ _ _ ["Math"; "Art"]%string _ Hd).
Defined.

(** * Interactive entry *)

Lemma set_nth_middle {T : Type} (pre post : list T) (x y : T) :
  set_nth (length pre) y (pre ++ x :: post) = pre ++ y :: post.
Proof. induction pre as [|a pre IH]; simpl; [reflexivity|now rewrite IH]. Qed.

Lemma nth_error_middle {T : Type} (pre post : list T) (x : T) :
  nth_error (pre ++ x :: post) (length pre) = Some x.
Proof. rewrite nth_error_app2, Nat.sub_diag by lia. reflexivity. Qed.

Section InteractiveLoops.
Context {A : Type} {F : Arith A}.
Variable parse_int : string -> option Z.
Variable parse_float : string -> option A.

(** The loop over the subjects reads as many lines as it has rounds. *)
Lemma subjects_loop (k j : nat) (acc : list string) (stdin : list string) :
  for_each (seq j k) read_subject acc stdin
  = match read_lines k stdin with
    | Done ls rest => Done (acc ++ ls) rest
    | Failed e => Failed e
    end.
Proof.
  revert j acc stdin; induction k as [|k IH]; intros j acc stdin;
    cbn [seq for_each read_lines].
  - unfold io_ret. now rewrite app_nil_r.
  - unfold io_bind at 1. unfold read_subject at 1. unfold io_bind, io_ret, input.
    destruct stdin as [|line rest]; [reflexivity|].
    rewrite IH. destruct (read_lines k rest) as [ls rest'|e]; [|reflexivity].
    now rewrite <- app_assoc.
Qed.

(** The loop over the marks of student [i] overwrites the rest of row [i]
    with the numbers read. *)
Lemma marks_loop (subjects : list string) (m : nat) (before after : list (list A))
      (k : nat) (pre zs : list A) (stdin : list string) :
  length subjects = m -> length pre + k = m -> length zs = k ->
  for_each (seq (length pre) k) (read_mark parse_float subjects (length before))
           {| ncols := m; rows := before ++ (pre ++ zs) :: after |} stdin
  = match read_floats parse_float k stdin with
    | Done vs rest => Done {| ncols := m; rows := before ++ (pre ++ vs) :: after |} rest
    | Failed e => Failed e
    end.
Proof.
  intros Hsub. revert pre zs stdin; induction k as [|k IH];
    intros pre zs stdin Hpre Hzs.
  - destruct zs; [|discriminate]. reflexivity.
  - destruct zs as [|z zs]; [discriminate|].
    cbn [seq for_each read_floats].
    assert (Hj : exists s, nth_error subjects (length pre) = Some s).
    { destruct (nth_error subjects (length pre)) eqn:E; [eauto|].
      apply nth_error_None in E. lia. }
    destruct Hj as (s & Hs).
    unfold io_bind at 1. unfold read_mark at 1.
    unfold io_bind, lift, getitem, io_ret, input. rewrite Hs.
    destruct stdin as [|line rest]; [reflexivity|].
    destruct (float_of parse_float line) as [v|e]; [|reflexivity].
    unfold setitem2. cbn [rows ncols].
    rewrite nth_error_middle.
    assert (Hlt : Nat.ltb (length pre) m = true) by (apply Nat.ltb_lt; lia).
    rewrite Hlt, !set_nth_middle.
    replace (pre ++ v :: zs) with ((pre ++ [v]) ++ zs) by now rewrite <- app_assoc.
    replace (S (length pre)) with (length (pre ++ [v]))
      by (rewrite length_app; simpl; lia).
    rewrite IH by (rewrite ?length_app; simpl in *; lia).
    destruct (read_floats parse_float k rest) as [vs rest'|e]; [|reflexivity].
    now rewrite <- app_assoc.
Qed.

(** The loop over the students fills the rows that are still zero with the
    marks read, one block of lines per student. *)
Lemma students_loop (subjects : list string) (m : nat) (todo : nat)
      (filled : list (list A)) (names : list string) (stdin : list string) :
  length subjects = m ->
  for_each (seq (length filled) todo) (read_student parse_float subjects m)
           (names, {| ncols := m;
                      rows := filled ++ repeat (repeat (of_Z 0) m) todo |}) stdin
  = match read_blocks parse_float todo m stdin with
    | Done blocks rest =>
        Done (names ++ map fst blocks,
              {| ncols := m; rows := filled ++ map snd blocks |}) rest
    | Failed e => Failed e
    end.
Proof.
  intros Hsub. revert filled names stdin; induction todo as [|todo IH];
    intros filled names stdin.
  - cbn. unfold io_ret. now rewrite !app_nil_r.
  - cbn [seq for_each read_blocks repeat].
    unfold io_bind at 1. unfold read_student at 1.
    unfold io_bind, input, io_ret.
    destruct stdin as [|name rest]; [reflexivity|].
    pose proof (marks_loop subjects m filled (repeat (repeat (of_Z 0) m) todo)
                  m [] (repeat (of_Z 0) m) rest Hsub eq_refl (repeat_length _ _)) as E.
    cbn [length app] in E. rewrite E.
    destruct (read_floats parse_float m rest) as [vs rest'|e]; [|reflexivity].
    replace (filled ++ vs :: repeat (repeat (of_Z 0) m) todo)
      with ((filled ++ [vs]) ++ repeat (repeat (of_Z 0) m) todo)
      by now rewrite <- app_assoc.
    replace (S (length filled)) with (length (filled ++ [vs]))
      by (rewrite length_app; simpl; lia).
    rewrite IH.
    destruct (read_blocks parse_float todo m rest') as [bs rest''|e]; [|reflexivity].
    cbn [map fst snd]. now rewrite <- !app_assoc.
Qed.

End InteractiveLoops.

Lemma combine_fst_snd {T U : Type} (l : list (T * U)) :
  combine (map fst l) (map snd l) = l.
Proof. induction l as [|[x y] l IH]; simpl; [reflexivity|now rewrite IH]. Qed.

Section InteractiveReaders.
Context {A : Type} {F : Arith A}.
Variable parse_int : string -> option Z.
Variable parse_float : string -> option A.

Lemma read_lines_Done (k : nat) (stdin ls rest : list string) :
  read_lines k stdin = Done ls rest -> length ls = k /\ stdin = ls ++ rest.
Proof.
  revert stdin ls rest; induction k as [|k IH]; intros stdin ls rest;
    cbn [read_lines]; unfold io_bind, io_ret, input.
  - intros H; injection H as <- <-. auto.
  - destruct stdin as [|s stdin]; [discriminate|].
    destruct (read_lines k stdin) as [ls' rest'|e] eqn:E; [|discriminate].
    intros H; injection H as <- <-. destruct (IH _ _ _ E) as [<- ->]. auto.
Qed.

Lemma read_lines_Failed (k : nat) (stdin : list string) (e : py_exn) :
  read_lines k stdin = Failed e -> e = EOFError.
Proof.
  revert stdin; induction k as [|k IH]; intros stdin;
    cbn [read_lines]; unfold io_bind, io_ret, input; [discriminate|].
  destruct stdin as [|s stdin]; [congruence|].
  destruct (read_lines k stdin) as [ls' rest'|e'] eqn:E; [discriminate|].
  intros H; injection H as <-. eapply IH; eassumption.
Qed.

Lemma read_lines_app (ls rest : list string) :
  read_lines (length ls) (ls ++ rest) = Done ls rest.
Proof.
  induction ls as [|s ls IH]; cbn [read_lines length app];
    unfold io_bind, io_ret, input; [reflexivity|].
  now rewrite IH.
Qed.

Lemma read_floats_Done (k : nat) (stdin rest : list string) (vs : list A) :
  read_floats parse_float k stdin = Done vs rest ->
  length vs = k /\ length stdin = k + length rest.
Proof.
  revert stdin vs rest; induction k as [|k IH]; intros stdin vs rest;
    cbn [read_floats]; unfold io_bind, io_ret, input, lift.
  - intros H; injection H as <- <-. auto.
  - destruct stdin as [|s stdin]; [discriminate|].
    destruct (float_of parse_float s); [|discriminate].
    destruct (read_floats parse_float k stdin) as [vs' rest'|e] eqn:E; [|discriminate].
    intros H; injection H as <- <-. destruct (IH _ _ _ E) as [<- Hl].
    simpl. rewrite Hl. auto.
Qed.

Lemma read_floats_Failed (k : nat) (stdin : list string) (e : py_exn) :
  read_floats parse_float k stdin = Failed e -> e = EOFError \/ e = Exn ValueError.
Proof.
  revert stdin; induction k as [|k IH]; intros stdin;
    cbn [read_floats]; unfold io_bind, io_ret, input, lift; [discriminate|].
  destruct stdin as [|s stdin]; [intros H; injection H as <-; auto|].
  unfold float_of. destruct (parse_float s); [|intros H; injection H as <-; auto].
  destruct (read_floats parse_float k stdin) as [vs' rest'|e'] eqn:E; [discriminate|].
  intros H; injection H as <-. eapply IH; eassumption.
Qed.

Lemma read_floats_app (cells : list (string * A)) (rest : list string) :
  Forall (fun c => parse_float (fst c) = Some (snd c)) cells ->
  read_floats parse_float (length cells) (map fst cells ++ rest)
  = Done (map snd cells) rest.
Proof.
  induction 1 as [|[s v] cells Hc _ IH]; cbn [read_floats length map app fst snd];
    unfold io_bind, io_ret, input, lift, float_of; [reflexivity|].
  simpl in Hc. now rewrite Hc, IH.
Qed.

Lemma read_blocks_Done (n m : nat) (stdin rest : list string)
      (blocks : list (string * list A)) :
  read_blocks parse_float n m stdin = Done blocks rest ->
  length blocks = n /\
  Forall (fun b => length (snd b) = m) blocks /\
  length stdin = n * (1 + m) + length rest.
Proof.
  revert stdin blocks rest; induction n as [|n IH]; intros stdin blocks rest;
    cbn [read_blocks]; unfold io_bind, io_ret, input.
  - intros H; injection H as <- <-. auto.
  - destruct stdin as [|name stdin]; [discriminate|].
    destruct (read_floats parse_float m stdin) as [vs rest1|e] eqn:E1; [|discriminate].
    destruct (read_blocks parse_float n m rest1) as [bs rest2|e] eqn:E2; [|discriminate].
    intros H; injection H as <- <-.
    destruct (read_floats_Done _ _ _ _ E1) as [Hvs Hl1].
    destruct (IH _ _ _ E2) as (Hbs & Hall & Hl2).
    split; [simpl; lia|]. split; [constructor; assumption|].
    simpl length. lia.
Qed.

Lemma read_blocks_Failed (n m : nat) (stdin : list string) (e : py_exn) :
  read_blocks parse_float n m stdin = Failed e -> e = EOFError \/ e = Exn ValueError.
Proof.
  revert stdin; induction n as [|n IH]; intros stdin;
    cbn [read_blocks]; unfold io_bind, io_ret, input; [discriminate|].
  destruct stdin as [|name stdin]; [intros H; injection H as <-; auto|].
  destruct (read_floats parse_float m stdin) as [vs rest1|e1] eqn:E1.
  - destruct (read_blocks parse_float n m rest1) as [bs rest2|e2] eqn:E2; [discriminate|].
    intros H; injection H as <-. eapply IH; eassumption.
  - intros H; injection H as <-. eapply read_floats_Failed; eassumption.
Qed.

Lemma read_blocks_app (m : nat) (studs : list (string * list (string * A)))
      (rest : list string) :
  Forall (fun st => length (snd st) = m /\
                    Forall (fun c => parse_float (fst c) = Some (snd c)) (snd st))
         studs ->
  read_blocks parse_float (length studs) m
              (flat_map (fun st => fst st :: map fst (snd st)) studs ++ rest)
  = Done (map (fun st => (fst st, map snd (snd st))) studs) rest.
Proof.
  induction 1 as [|[name cells] studs [Hlen Hcells] _ IH];
    cbn [read_blocks length flat_map map app fst snd];
    unfold io_bind, io_ret, input; [reflexivity|].
  simpl in Hlen, Hcells. rewrite <- app_assoc, <- Hlen.
  rewrite (read_floats_app cells _ Hcells). rewrite Hlen. now rewrite IH.
Qed.

Lemma io_bind_cong {T U : Type} (c1 c2 : io T) (k1 k2 : T -> io U) (stdin : list string) :
  c1 stdin = c2 stdin ->
  (forall v rest, c2 stdin = Done v rest -> k1 v rest = k2 v rest) ->
  io_bind c1 k1 stdin = io_bind c2 k2 stdin.
Proof.
  intros Hc Hk. unfold io_bind. rewrite Hc.
  destruct (c2 stdin) as [v rest|e]; [now apply Hk|reflexivity].
Qed.

(** The imperative entry, which fills an array of zeros cell by cell, reads
    the same table as the reference. *)
Lemma interactive_mode_reference (stdin : list string) :
  interactive_mode parse_int parse_float stdin
  = interactive_reference parse_int parse_float stdin.
Proof.
  unfold interactive_mode, interactive_reference.
  apply io_bind_cong; [reflexivity|]. intros l1 stdin1 _.
  apply io_bind_cong; [reflexivity|]. intros n stdin2 _.
  apply io_bind_cong; [reflexivity|]. intros l2 stdin3 _.
  apply io_bind_cong; [reflexivity|]. intros m stdin4 _.
  apply io_bind_cong; [reflexivity|]. intros marks stdin5 Hmarks.
  assert (Hm : marks = {| ncols := Z.to_nat m;
                          rows := repeat (repeat (of_Z 0) (Z.to_nat m)) (Z.to_nat n) |}).
  { unfold lift, np_zeros in Hmarks.
    destruct ((n <? 0)%Z || (m <? 0)%Z); [discriminate|]. now injection Hmarks as <- _. }
  subst marks.
  apply io_bind_cong.
  { rewrite subjects_loop. now destruct (read_lines (Z.to_nat m) stdin5). }
  intros subs rest Hsubs.
  destruct (read_lines_Done _ _ _ _ Hsubs) as [Hlen _].
  pose proof (students_loop parse_float subs (Z.to_nat m) (Z.to_nat n) [] [] rest Hlen)
    as E.
  cbn [length app] in E. unfold io_bind. rewrite E.
  destruct (read_blocks parse_float (Z.to_nat n) (Z.to_nat m) rest)
    as [blocks rest'|e]; reflexivity.
Qed.

End InteractiveReaders.

Lemma io_bind_Done {T U : Type} (c : io T) (k : T -> io U) (stdin rest : list string) (v : U) :
  io_bind c k stdin = Done v rest ->
  exists x mid, c stdin = Done x mid /\ k x mid = Done v rest.
Proof.
  unfold io_bind. destruct (c stdin) as [x mid|e]; [|discriminate].
  intros H. now exists x, mid.
Qed.

Lemma io_bind_Failed {T U : Type} (c : io T) (k : T -> io U) (stdin : list string) (e : py_exn) :
  io_bind c k stdin = Failed e ->
  c stdin = Failed e \/ exists x mid, c stdin = Done x mid /\ k x mid = Failed e.
Proof.
  unfold io_bind. destruct (c stdin) as [x mid|e'].
  - intros H. right. exists x, mid. split; [reflexivity|assumption].
  - intros H. left. now injection H as ->.
Qed.

Section InteractiveResults.
Context {A : Type} {F : Arith A}.
Variable parse_int : string -> option Z.
Variable parse_float : string -> option A.

(** What happens once the table is read: the statistics and the display go
    through exactly when there is at least one subject and one student, and
    otherwise raise [ValueError]. *)
Lemma after_reading (subs : list string) (blocks : list (string * list A)) (m : nat) :
  length subs = m ->
  Forall (fun b => length (snd b) = m) blocks ->
  match
    (stats <- calculate_student_statistics {| ncols := m; rows := map snd blocks |} ;;
     let '(averages, maximums, minimums, std_devs) := stats in
     display_results (map fst blocks) {| ncols := m; rows := map snd blocks |}
                     averages maximums minimums std_devs subs)
  with
  | Ok d =>
      1 <= m /\ 1 <= length blocks /\
      shown_subjects d = subs /\ shown_marks d = blocks /\
      shown_total d = length blocks
  | Raise e => e = ValueError /\ (m = 0 \/ blocks = [])
  end.
Proof.
  intros Hsubs Hblocks.
  destruct m as [|m'].
  { unfold calculate_student_statistics, np_max_axis1, reduce_axis1. simpl. auto. }
  set (marks := {| ncols := S m'; rows := map snd blocks |}).
  assert (Hwf : wf marks) by (unfold wf, marks; simpl; now apply Forall_map).
  assert (Hc : 1 <= ncols marks) by (simpl; lia).
  destruct (calculate_student_statistics_Ok marks Hwf Hc)
    as (maxs & mins & Hcalc & Hmaxs & Hmins).
  rewrite Hcalc. cbn [bind].
  apply Forall2_length in Hmaxs, Hmins. unfold marks in Hmaxs, Hmins.
  cbn [rows] in Hmaxs, Hmins. rewrite length_map in Hmaxs, Hmins.
  destruct blocks as [|b blocks'].
  { destruct maxs; [|discriminate]. destruct mins; [|discriminate].
    cbn. auto. }
  assert (Hn : 1 <= length (map fst (b :: blocks'))) by (simpl; lia).
  destruct (display_results_Ok (map fst (b :: blocks')) marks
              (np_mean_axis1 marks) maxs mins (np_std_axis1 0 marks) subs)
    as (rn & ra & hi & lo & _ & _ & _ & _ & _ & _ & Hd);
    try assumption;
    try (unfold np_mean_axis1, np_std_axis1, nrows, marks; cbn [rows ncols];
         rewrite ?length_map; congruence || lia).
  rewrite Hd. cbn [shown_subjects shown_marks shown_total].
  repeat split; try lia.
  - simpl; lia.
  - unfold marks. cbn [rows]. apply combine_fst_snd.
  - now rewrite length_map.
Qed.

(** A completed interactive entry. *)
Lemma interactive_reference_Done (stdin rest : list string) (d : display A) :
  interactive_reference parse_int parse_float stdin = Done d rest ->
  exists l1 l2 tail n m subs tail' blocks,
    stdin = l1 :: l2 :: tail /\
    parse_int l1 = Some n /\ parse_int l2 = Some m /\
    (1 <= n)%Z /\ (1 <= m)%Z /\
    read_lines (Z.to_nat m) tail = Done subs tail' /\
    read_blocks parse_float (Z.to_nat n) (Z.to_nat m) tail' = Done blocks rest /\
    shown_subjects d = subs /\ shown_marks d = blocks /\
    shown_total d = Z.to_nat n.
Proof.
  unfold interactive_reference. intros H.
  apply io_bind_Done in H as (l1 & s1 & H1 & H).
  apply io_bind_Done in H as (n & s2 & H2 & H).
  apply io_bind_Done in H as (l2 & s3 & H3 & H).
  apply io_bind_Done in H as (m & s4 & H4 & H).
  apply io_bind_Done in H as (z & s5 & H5 & H).
  apply io_bind_Done in H as (subs & s6 & H6 & H).
  apply io_bind_Done in H as (blocks & s7 & H7 & H).
  unfold input in H1, H3.
  destruct stdin as [|x stdin]; [discriminate|]. injection H1 as -> ->.
  unfold lift, int_of in H2. destruct (parse_int l1) as [n'|] eqn:Hn; [|discriminate].
  injection H2 as -> ->.
  destruct s2 as [|x s2]; [discriminate|]. injection H3 as -> ->.
  unfold lift, int_of in H4. destruct (parse_int l2) as [m'|] eqn:Hm; [|discriminate].
  injection H4 as -> ->.
  unfold lift, np_zeros in H5.
  destruct ((n <? 0)%Z || (m <? 0)%Z) eqn:Hneg; [discriminate|].
  injection H5 as _ ->.
  apply orb_false_elim in Hneg as [Hn0 Hm0].
  apply Z.ltb_ge in Hn0, Hm0.
  destruct (read_lines_Done _ _ _ _ H6) as [Hsubs _].
  destruct (read_blocks_Done _ _ _ _ _ _ H7) as (Hlen & Hall & _).
  pose proof (after_reading subs blocks (Z.to_nat m) Hsubs Hall) as Hafter.
  unfold io_bind, lift in H.
  destruct (calculate_student_statistics _) as [[[[av mx] mn] sd]|e]; [|discriminate].
  cbn [bind] in Hafter.
  destruct (display_results _ _ _ _ _ _ _) as [d'|e]; [|discriminate].
  injection H as -> ->.
  destruct Hafter as (Hm1 & Hn1 & Hs & Hmk & Ht).
  exists l1, l2, s5, n, m, subs, s6, blocks.
  repeat split; try assumption; try lia; congruence.
Qed.

(** A failed interactive entry. *)
Lemma interactive_reference_Failed (stdin : list string) (e : py_exn) :
  interactive_reference parse_int parse_float stdin = Failed e ->
  e = EOFError \/ e = Exn ValueError.
Proof.
  unfold interactive_reference. intros H.
  apply io_bind_Failed in H as [H|(l1 & s1 & _ & H)].
  { unfold input in H. destruct stdin; [injection H as <-; auto|discriminate]. }
  apply io_bind_Failed in H as [H|(n & s2 & _ & H)].
  { unfold lift, int_of in H. destruct (parse_int l1); [discriminate|].
    injection H as <-; auto. }
  apply io_bind_Failed in H as [H|(l2 & s3 & _ & H)].
  { unfold input in H. destruct s2; [injection H as <-; auto|discriminate]. }
  apply io_bind_Failed in H as [H|(m & s4 & _ & H)].
  { unfold lift, int_of in H. destruct (parse_int l2); [discriminate|].
    injection H as <-; auto. }
  apply io_bind_Failed in H as [H|(z & s5 & _ & H)].
  { unfold lift, np_zeros in H. destruct ((n <? 0)%Z || (m <? 0)%Z); [|discriminate].
    injection H as <-; auto. }
  apply io_bind_Failed in H as [H|(subs & s6 & H6 & H)].
  { left. eapply read_lines_Failed; eassumption. }
  apply io_bind_Failed in H as [H|(blocks & s7 & H7 & H)].
  { eapply read_blocks_Failed; eassumption. }
  destruct (read_lines_Done _ _ _ _ H6) as [Hsubs _].
  destruct (read_blocks_Done _ _ _ _ _ _ H7) as (Hlen & Hall & _).
  pose proof (after_reading subs blocks (Z.to_nat m) Hsubs Hall) as Hafter.
  unfold io_bind, lift in H.
  destruct (calculate_student_statistics _) as [[[[av mx] mn] sd]|e'].
  - cbn [bind] in Hafter.
    destruct (display_results _ _ _ _ _ _ _) as [d'|e'']; [discriminate|].
    injection H as <-. destruct Hafter as [-> _]. auto.
  - cbn [bind] in Hafter. injection H as <-. destruct Hafter as [-> _]. auto.
Qed.

End InteractiveResults.

(** Interactive entry fails only with [ValueError] (a count or a mark that
    does not parse, a negative count, no subject or no student) or with
    [EOFError] (the input ends too early): the loops never index out of
    bounds, whatever is typed and whatever [int] and [float] accept. *)
Theorem interactive_mode_fails_with_ValueError_or_EOFError :
  forall (A : Type) (F : Arith A)
         (parse_int : string -> option Z) (parse_float : string -> option A)
         (stdin : list string) (e : py_exn),
    interactive_mode parse_int parse_float stdin = Failed e ->
    e = EOFError \/ e = Exn ValueError.
Proof.
  intros A F parse_int parse_float stdin e H.
  rewrite interactive_mode_reference in H.
  eapply interactive_reference_Failed. eassumption.
Qed.

Lemma interactive_mode_fails_with_ValueError_or_EOFError_witness :
  interactive_mode (A := float) parse_decimal
                   (fun s => option_map float_of_Z (parse_decimal s))
                   ["1"; "2"; "Math"; "Art"; "Ann"; "7"; "nine"]%string
    = Failed (Exn ValueError) /\
  (Exn ValueError = EOFError \/ Exn ValueError = Exn ValueError).
Proof.
  assert (H : interactive_mode (A := float) parse_decimal
                (fun s => option_map float_of_Z (parse_decimal s))
                ["1"; "2"; "Math"; "Art"; "Ann"; "7"; "nine"]%string
              = Failed (Exn ValueError)) by reflexivity.
  split; [exact H|].
  exact (interactive_mode_fails_with_ValueError_or_EOFError float binary64 _ _ _ _ H).
Defined.

(** Interactive entry completes only when at least one student and at least
    one subject were announced. It has then read exactly two counts, one name
    per subject, and for every student a name and one mark per subject; it
    shows as many subjects and students as announced, with a full row of
    marks each. *)
Theorem interactive_mode_completes_only_with_students_and_subjects :
  forall (A : Type) (F : Arith A)
         (parse_int : string -> option Z) (parse_float : string -> option A)
         (stdin rest : list string) (d : display A),
    interactive_mode parse_int parse_float stdin = Done d rest ->
    exists l1 l2 tail n m,
      stdin = l1 :: l2 :: tail /\
      parse_int l1 = Some n /\ parse_int l2 = Some m /\
      (1 <= n)%Z /\ (1 <= m)%Z /\
      shown_total d = Z.to_nat n /\
      length (shown_subjects d) = Z.to_nat m /\
      length (shown_marks d) = Z.to_nat n /\
      Forall (fun row => length (snd row) = Z.to_nat m) (shown_marks d) /\
      length stdin = 2 + Z.to_nat m + Z.to_nat n * (1 + Z.to_nat m) + length rest.
Proof.
  intros A F parse_int parse_float stdin rest d H.
  rewrite interactive_mode_reference in H.
  apply interactive_reference_Done in H
    as (l1 & l2 & tail & n & m & subs & tail' & blocks & -> & Hn & Hm & Hn1 & Hm1
        & Hsubs & Hblocks & Hs & Hmk & Ht).
  destruct (read_lines_Done _ _ _ _ Hsubs) as [Hlen ->].
  destruct (read_blocks_Done _ _ _ _ _ _ Hblocks) as (Hbl & Hall & Hcons).
  exists l1, l2, (subs ++ tail'), n, m.
  repeat split; try assumption; try congruence.
  simpl length. rewrite length_app. lia.
Qed.

Lemma interactive_mode_completes_only_with_students_and_subjects_witness :
  exists d rest,
    interactive_mode (A := float) parse_decimal
                     (fun s => option_map float_of_Z (parse_decimal s))
                     ["1"; "2"; "Math"; "Art"; "Ann"; "7"; "9"; "more"]%string
      = Done d rest /\
    exists l1 l2 tail n m,
      ["1"; "2"; "Math"; "Art"; "Ann"; "7"; "9"; "more"]%string = l1 :: l2 :: tail /\
      parse_decimal l1 = Some n /\ parse_decimal l2 = Some m /\
      (1 <= n)%Z /\ (1 <= m)%Z /\
      shown_total d = Z.to_nat n /\
      length (shown_subjects d) = Z.to_nat m /\
      length (shown_marks d) = Z.to_nat n /\
      Forall (fun row => length (snd row) = Z.to_nat m) (shown_marks d) /\
      length ["1"; "2"; "Math"; "Art"; "Ann"; "7"; "9"; "more"]%string
        = 2 + Z.to_nat m + Z.to_nat n * (1 + Z.to_nat m) + length rest.
Proof.
  assert (Hex : exists d rest,
             interactive_mode (A := float) parse_decimal
               (fun s => option_map float_of_Z (parse_decimal s))
               ["1"; "2"; "Math"; "Art"; "Ann"; "7"; "9"; "more"]%string
             = Done d rest).
  { vm_compute. eexists. eexists. reflexivity. }
  destruct Hex as (d & rest & H).
  exists d, rest. split; [exact H|].
  exact (interactive_mode_completes_only_with_students_and_subjects
           float binary64 _ _ _ _ _ H).
Defined.

(** What is typed is what is analysed. When the two counts announce [n >= 1]
    students and [m >= 1] subjects, and the input goes on with [m] subject
    names and, for every student, a name and [m] marks that [float] accepts,
    interactive entry completes, leaves the rest of the input unread, and
    shows the subjects and every student with the marks typed, in the order
    they were typed. *)
Theorem interactive_mode_shows_what_was_typed :
  forall (A : Type) (F : Arith A)
         (parse_int : string -> option Z) (parse_float : string -> option A)
         (l1 l2 : string) (subjects : list string)
         (students : list (string * list (string * A))) (rest : list string),
    parse_int l1 = Some (Z.of_nat (length students)) ->
    parse_int l2 = Some (Z.of_nat (length subjects)) ->
    1 <= length students -> 1 <= length subjects ->
    Forall (fun st => length (snd st) = length subjects /\
                      Forall (fun c => parse_float (fst c) = Some (snd c)) (snd st))
           students ->
    exists d,
      interactive_mode parse_int parse_float
        (l1 :: l2 :: subjects
            ++ flat_map (fun st => fst st :: map fst (snd st)) students ++ rest)
      = Done d rest /\
      shown_subjects d = subjects /\
      shown_marks d = map (fun st => (fst st, map snd (snd st))) students /\
      shown_total d = length students.
Proof.
  intros A F parse_int parse_float l1 l2 subjects students rest
         Hl1 Hl2 Hn Hm Hall.
  rewrite interactive_mode_reference.
  unfold interactive_reference, io_bind, input, lift, int_of.
  rewrite Hl1, Hl2. unfold np_zeros.
  replace ((Z.of_nat (length students) <? 0)%Z) with false
    by (symmetry; apply Z.ltb_ge; lia).
  replace ((Z.of_nat (length subjects) <? 0)%Z) with false
    by (symmetry; apply Z.ltb_ge; lia).
  cbn [orb]. rewrite !Nat2Z.id.
  rewrite read_lines_app, (read_blocks_app parse_float _ _ _ Hall).
  set (blocks := map (fun st => (fst st, map snd (snd st))) students).
  assert (Hblocks : Forall (fun b => length (snd b) = length subjects) blocks).
  { unfold blocks. apply Forall_map. eapply Forall_impl; [|exact Hall].
    intros [name cells] [Hlen _]. simpl in *. now rewrite length_map. }
  pose proof (after_reading subjects blocks (length subjects) eq_refl Hblocks)
    as Hafter.
  destruct (calculate_student_statistics _) as [[[[av mx] mn] sd]|e];
    cbn [bind] in Hafter.
  - destruct (display_results _ _ _ _ _ _ _) as [d|e].
    + exists d. destruct Hafter as (_ & _ & Hs & Hmk & Ht).
      repeat split; try assumption.
      rewrite Ht. unfold blocks. now rewrite length_map.
    + exfalso. destruct Hafter as [_ [H0|H0]]; [lia|].
      unfold blocks in H0. destruct students; [simpl in Hn; lia|discriminate].
  - exfalso. destruct Hafter as [_ [H0|H0]]; [lia|].
    unfold blocks in H0. destruct students; [simpl in Hn; lia|discriminate].
Qed.

Lemma interactive_mode_shows_what_was_typed_witness :
  let parse_float := fun s => option_map float_of_Z (parse_decimal s) in
  let subjects := ["Math"; "Art"]%string in
  let students :=
    [("Ann", [("7", 7); ("9", 9)]); ("Bob", [("4", 4); ("10", 10)])]%string%float in
  let rest := ["more"]%string in
  parse_decimal "2" = Some (Z.of_nat (length students)) /\
  parse_decimal "2" = Some (Z.of_nat (length subjects)) /\
  1 <= length students /\ 1 <= length subjects /\
  Forall (fun st => length (snd st) = length subjects /\
                    Forall (fun c => parse_float (fst c) = Some (snd c)) (snd st))
         students /\
  exists d,
    interactive_mode parse_decimal parse_float
      ("2" :: "2" :: subjects
         ++ flat_map (fun st => fst st :: map fst (snd st)) students ++ rest)%string
    = Done d rest /\
    shown_subjects d = subjects /\
    shown_marks d = map (fun st => (fst st, map snd (snd st))) students /\
    shown_total d = length students.
Proof.
  assert (Hn : 1 <= 2) by lia.
  assert (Hall :
            Forall (fun st : string * list (string * float) =>
                      length (snd st) = length ["Math"; "Art"]%string /\
                      Forall (fun c => option_map float_of_Z (parse_decimal (fst c))
                                       = Some (snd c)) (snd st))
                   [("Ann", [("7", 7); ("9", 9)]);
                    ("Bob", [("4", 4); ("10", 10)])]%string%float).
  { repeat constructor. }
  split; [reflexivity|]. split; [reflexivity|].
  split; [exact Hn|]. split; [exact Hn|]. split; [exact Hall|].
  exact (interactive_mode_shows_what_was_typed float binary64 parse_decimal
           (fun s => option_map float_of_Z (parse_decimal s))
           "2"%string "2"%string ["Math"; "Art"]%string
           [("Ann", [("7", 7); ("9", 9)]); ("Bob", [("4", 4); ("10", 10)])]%string%float
           ["more"]%string eq_refl eq_refl Hn Hn Hall).
Defined.
